(** * Red Pepe Snake: the game simulation and menu state machine of
    [src/main.js], embedded as pure functions on an explicit state.

    Conventions of the embedding.
    - JavaScript numbers that hold integers (cell coordinates, score,
      counters, menu index) are [Z]; [%] is the truncating remainder
      [Z.rem]; [Math.floor (a / b)] on integers with [b > 0] is [Z.div].
    - The module-level [let] variables of the program are the fields of
      [State].  The [hidden] class of the restart button, which the
      simulation switches on and off, is the field [restartHidden].
    - [Math.random ()] is an oracle [rnd : nat -> Q]: the k-th call made
      by the program returns [rnd k]; the field [randomCalls] counts the
      calls made so far.  [randInt] multiplies and floors exactly.
    - [getLocalDateKey ()] reads the clock; its result is passed to the
      functions that call it as the argument [today].
    - The HUD text and the canvas are functions of the state and are not
      part of it; [saveStats] only copies [stats] to local storage.
    - Numbers that can be fractional (pointer positions, the font scale)
      are [Q], with exact arithmetic; [Math.round q] is
      [Qfloor (q + 1/2)].  The width of the screen rectangle, which
      [layout] keeps in [screenCss], is passed to the functions that
      read it as the argument [screenWidth]. *)

From Stdlib Require Import ZArith QArith Qround Qminmax List Bool Lia Lqa.
From stdpp Require Import base gmap strings list.

Local Open Scope Z_scope.

(** ** Constants *)

Definition GRID_COLS : Z := 20.
Definition GRID_ROWS : Z := 16.

(** ** Data *)

(** [{x, y}] objects: snake cells, the food cell and the two directions. *)
Record Cell : Type := mkCell { x : Z; y : Z }.

Global Instance Cell_eq_dec : EqDecision Cell.
Proof. solve_decision. Defined.

(** [gameState]: "idle" | "playing" | "paused" | "over". *)
Inductive GameState : Type := idle | playing | paused | over.

Global Instance GameState_eq_dec : EqDecision GameState.
Proof. solve_decision. Defined.

(** [uiScreen]: "menu" | "instructions" | "none". *)
Inductive UiScreen : Type := menu | instructions | none.

Global Instance UiScreen_eq_dec : EqDecision UiScreen.
Proof. solve_decision. Defined.

(** The object returned by [loadStats]: [bestScore] is always a number
    and [attemptsByDay] always an object there. *)
Record Stats : Type := mkStats {
  bestScore : Z;
  attemptsByDay : gmap string Z
}.

Record State : Type := mkState {
  score : Z;
  gameOver : bool;
  gameState : GameState;
  uiScreen : UiScreen;
  menuIndex : Z;
  snake : list Cell;
  dir : Cell;
  nextDir : Cell;
  food : Cell;
  stats : Stats;
  restartHidden : bool;
  randomCalls : nat
}.

(** How a call ends: it returns, or an exception leaves it; either way
    the assignments made so far stay in the state. *)
Inductive Outcome : Type :=
| Returned (st : State)
| Threw (st : State).

Definition stateOf (o : Outcome) : State :=
  match o with Returned st => st | Threw st => st end.

(** *** Assignments to the module variables *)

Definition set_score (v : Z) (st : State) : State :=
  mkState v (gameOver st) (gameState st) (uiScreen st) (menuIndex st)
    (snake st) (dir st) (nextDir st) (food st) (stats st)
    (restartHidden st) (randomCalls st).

Definition set_gameOver (v : bool) (st : State) : State :=
  mkState (score st) v (gameState st) (uiScreen st) (menuIndex st)
    (snake st) (dir st) (nextDir st) (food st) (stats st)
    (restartHidden st) (randomCalls st).

Definition set_gameState (v : GameState) (st : State) : State :=
  mkState (score st) (gameOver st) v (uiScreen st) (menuIndex st)
    (snake st) (dir st) (nextDir st) (food st) (stats st)
    (restartHidden st) (randomCalls st).

Definition set_uiScreen (v : UiScreen) (st : State) : State :=
  mkState (score st) (gameOver st) (gameState st) v (menuIndex st)
    (snake st) (dir st) (nextDir st) (food st) (stats st)
    (restartHidden st) (randomCalls st).

Definition set_menuIndex (v : Z) (st : State) : State :=
  mkState (score st) (gameOver st) (gameState st) (uiScreen st) v
    (snake st) (dir st) (nextDir st) (food st) (stats st)
    (restartHidden st) (randomCalls st).

Definition set_snake (v : list Cell) (st : State) : State :=
  mkState (score st) (gameOver st) (gameState st) (uiScreen st) (menuIndex st)
    v (dir st) (nextDir st) (food st) (stats st)
    (restartHidden st) (randomCalls st).

Definition set_dir (v : Cell) (st : State) : State :=
  mkState (score st) (gameOver st) (gameState st) (uiScreen st) (menuIndex st)
    (snake st) v (nextDir st) (food st) (stats st)
    (restartHidden st) (randomCalls st).

Definition set_nextDir (v : Cell) (st : State) : State :=
  mkState (score st) (gameOver st) (gameState st) (uiScreen st) (menuIndex st)
    (snake st) (dir st) v (food st) (stats st)
    (restartHidden st) (randomCalls st).

Definition set_food (v : Cell) (st : State) : State :=
  mkState (score st) (gameOver st) (gameState st) (uiScreen st) (menuIndex st)
    (snake st) (dir st) (nextDir st) v (stats st)
    (restartHidden st) (randomCalls st).

Definition set_stats (v : Stats) (st : State) : State :=
  mkState (score st) (gameOver st) (gameState st) (uiScreen st) (menuIndex st)
    (snake st) (dir st) (nextDir st) (food st) v
    (restartHidden st) (randomCalls st).

Definition set_restartHidden (v : bool) (st : State) : State :=
  mkState (score st) (gameOver st) (gameState st) (uiScreen st) (menuIndex st)
    (snake st) (dir st) (nextDir st) (food st) (stats st)
    v (randomCalls st).

Definition set_randomCalls (v : nat) (st : State) : State :=
  mkState (score st) (gameOver st) (gameState st) (uiScreen st) (menuIndex st)
    (snake st) (dir st) (nextDir st) (food st) (stats st)
    (restartHidden st) v.

(** ** Small helpers of the program *)

(** [isSameCell(a, b)]: [a.x === b.x && a.y === b.y]. *)
Definition isSameCell (a b : Cell) : bool :=
  (x a =? x b) && (y a =? y b).

(** [randInt(min, maxInclusive)] on the value [r] that [Math.random ()]
    returned: [Math.floor(r * (maxInclusive - min + 1)) + min]. *)
Definition randInt (r : Q) (min maxInclusive : Z) : Z :=
  Qfloor (r * inject_Z (maxInclusive - min + 1)) + min.

(** [speedLevelForScore(s)]. *)
Definition speedLevelForScore (s : Z) : Z :=
  Z.min 10 (1 + s / 5).

(** [stepMsForScore(s)]. *)
Definition stepMsForScore (s : Z) : Z :=
  let level := Z.min 10 (1 + s / 5) in
  let tick := Z.max 80 (220 - (level - 1) * 15) in
  tick.

(** [setDirection(x, y)]: a 180 degree reversal of [dir] is ignored. *)
Definition setDirection (dx dy : Z) (st : State) : State :=
  if (dx =? - x (dir st)) && (dy =? - y (dir st)) then st
  else set_nextDir (mkCell dx dy) st.

(** ** The simulation *)

Section Simulation.

(** The values returned by the successive calls of [Math.random ()]. *)
Variable rnd : nat -> Q.

(** The cell drawn by one pass of the loop body of [spawnFood] when
    [k] calls of [Math.random ()] came before it: [x] is drawn first. *)
Definition drawCellAt (k : nat) : Cell :=
  mkCell (randInt (rnd k) 0 (GRID_COLS - 1))
         (randInt (rnd (S k)) 0 (GRID_ROWS - 1)).

(** The loop of [spawnFood] with [tries] passes left; when none is
    left the fallback cell is taken. *)
Fixpoint spawnFoodLoop (tries : nat) (st : State) : State :=
  match tries with
  | O => set_food (mkCell 0 0) st
  | S tries' =>
      let p := drawCellAt (randomCalls st) in
      let st1 := set_randomCalls (S (S (randomCalls st))) st in
      if existsb (fun s => isSameCell s p) (snake st1)
      then spawnFoodLoop tries' st1
      else set_food p st1
  end.

(** [spawnFood()]. *)
Definition spawnFood (st : State) : State :=
  spawnFoodLoop 5000%nat st.

(** [resetGame()]. *)
Definition resetGame (st : State) : State :=
  let st := set_score 0 st in
  let st := set_gameOver false st in
  let st := set_dir (mkCell 1 0) st in
  let st := set_nextDir (mkCell 1 0) st in
  let startX := GRID_COLS / 2 - 1 in
  let startY := GRID_ROWS / 2 in
  let st := set_snake [ mkCell startX startY;
                        mkCell (startX - 1) startY;
                        mkCell (startX - 2) startY ] st in
  let st := spawnFood st in
  set_restartHidden true st.

(** [recordAttemptStart()], with [today] the key [getLocalDateKey ()]
    returns; [??] reads a missing entry as 0. *)
Definition recordAttemptStart (today : string) (st : State) : State :=
  let m := attemptsByDay (stats st) in
  set_stats (mkStats (bestScore (stats st))
                     (<[today := default 0 (m !! today) + 1]> m)) st.

(** [maybeUpdateBest()]. *)
Definition maybeUpdateBest (st : State) : State :=
  if bestScore (stats st) <? score st
  then set_stats (mkStats (score st) (attemptsByDay (stats st))) st
  else st.

(** [startNewGame()]. *)
Definition startNewGame (today : string) (st : State) : State :=
  let st := resetGame st in
  let st := recordAttemptStart today st in
  let st := set_gameState playing st in
  set_uiScreen none st.

(** [pauseGame()]. *)
Definition pauseGame (st : State) : State :=
  if bool_decide (gameState st <> playing) then st
  else set_menuIndex 1 (set_uiScreen menu (set_gameState paused st)).

(** [resumeGame()]. *)
Definition resumeGame (st : State) : State :=
  if bool_decide (gameState st <> paused) then st
  else set_uiScreen none (set_gameState playing st).

(** [togglePause()]. *)
Definition togglePause (st : State) : State :=
  if bool_decide (gameState st = playing) then pauseGame st
  else if bool_decide (gameState st = paused) then resumeGame st
  else st.

(** [selectMenuItem(index)]. *)
Definition selectMenuItem (index : Z) (today : string) (st : State) : State :=
  if index =? 0 then set_uiScreen instructions st
  else if index =? 1 then
    (if bool_decide (gameState st = paused) then resumeGame st else st)
  else if index =? 2 then startNewGame today st
  else st.

(** The head that [tick] computes from the old head and the direction:
    one step, then each axis wrapped with [%]. *)
Definition wrappedNext (head d : Cell) : Cell :=
  let next := mkCell (x head + x d) (y head + y d) in
  mkCell (Z.rem (x next + GRID_COLS) GRID_COLS)
         (Z.rem (y next + GRID_ROWS) GRID_ROWS).

(** [nextSnake] of [tick]: [[next, ...snake]], popped unless [ate]. *)
Definition candidateBody (next : Cell) (ate : bool) (body : list Cell) : list Cell :=
  let nextSnake := next :: body in
  if negb ate then removelast nextSnake else nextSnake.

(** The self collision loop of [tick]: indices 1 and up of [nextSnake]
    are compared with [next]. *)
Definition hitsBody (next : Cell) (nextSnake : list Cell) : bool :=
  existsb (fun c => isSameCell c next) (tail nextSnake).

(** [tick()]. *)
Definition tick (st : State) : Outcome :=
  if gameOver st || bool_decide (gameState st <> playing) then Returned st
  else
    let st := set_dir (nextDir st) st in
    match snake st with
    | [] => Threw st (* [head] is undefined: reading [head.x] raises TypeError *)
    | head :: _ =>
        let next := wrappedNext head (dir st) in
        let ate := isSameCell next (food st) in
        let nextSnake := candidateBody next ate (snake st) in
        if hitsBody next nextSnake then
          Returned (set_restartHidden false
                      (set_gameState over (set_gameOver true st)))
        else
          let st := set_snake nextSnake st in
          if ate then
            let st := set_score (score st + 1) st in
            let st := spawnFood st in
            Returned (maybeUpdateBest st)
          else Returned st
    end.

(** The calls that input handlers and the frame loop make. *)
Inductive Call : Type :=
| CallTick
| CallSetDirection (dx dy : Z)
| CallPauseGame
| CallResumeGame
| CallTogglePause
| CallSelectMenuItem (index : Z) (today : string)
| CallStartNewGame (today : string).

Definition perform (c : Call) (st : State) : State :=
  match c with
  | CallTick => stateOf (tick st)
  | CallSetDirection dx dy => setDirection dx dy st
  | CallPauseGame => pauseGame st
  | CallResumeGame => resumeGame st
  | CallTogglePause => togglePause st
  | CallSelectMenuItem index today => selectMenuItem index today st
  | CallStartNewGame today => startNewGame today st
  end.

(** The calls, performed from left to right. *)
Definition performAll (cs : list Call) (st : State) : State :=
  fold_left (fun s c => perform c s) cs st.

End Simulation.

(** [spawnFood] runs up to 5000 passes: proofs use its lemmas and do
    not unfold it. *)
Arguments spawnFood : simpl never.
Arguments maybeUpdateBest : simpl never.

(** Whether a call invokes [startNewGame]: directly, or as menu row 2. *)
Definition invokesStartNewGame (c : Call) : bool :=
  match c with
  | CallStartNewGame _ => true
  | CallSelectMenuItem index _ => index =? 2
  | _ => false
  end.

(** The four unit directions the input handlers pass to [setDirection]. *)
Definition directions : list Cell :=
  [ mkCell 1 0; mkCell (-1) 0; mkCell 0 1; mkCell 0 (-1) ].

(** A cell of the board. *)
Definition onBoard (c : Cell) : Prop :=
  0 <= x c < GRID_COLS /\ 0 <= y c < GRID_ROWS.

(** [d] reversed: the direction [setDirection] refuses when [d] is
    the current one. *)
Definition opposite (d : Cell) : Cell :=
  mkCell (- x d) (- y d).

(** The cell drawn by pass [j] (from 0) of a [spawnFood] loop that
    starts after [k] calls of [Math.random ()]. *)
Definition sampleAt (rnd : nat -> Q) (k j : nat) : Cell :=
  drawCellAt rnd (k + 2 * j)%nat.

(** ** States used as examples *)

(** The module variables as their declarations initialise them, with
    the stats that [loadStats] returned and the restart button as the
    page has it. *)
Definition initialState (loaded : Stats) (hidden : bool) : State :=
  mkState 0 false idle menu 2 [] (mkCell 1 0) (mkCell 1 0) (mkCell 0 0)
    loaded hidden 0.

(** The stats [loadStats] returns when nothing is stored. *)
Definition defaultStats : Stats := mkStats 0 ∅.

(** [Math.random ()] returning 0 at every call. *)
Definition zeroRandom : nat -> Q := fun _ => 0%Q.

(** A running game: the snake heads right on row 5, food lies one
    step ahead of the head. *)
Definition stateBeforeFood : State :=
  set_food (mkCell 6 5)
    (set_snake [mkCell 5 5; mkCell 4 5; mkCell 3 5]
       (set_gameState playing
          (set_uiScreen none (initialState defaultStats true)))).

(** A running game: the snake has curled up and its pending direction
    leads the head from (5,5) into its own cell (6,5). *)
Definition stateBeforeCollision : State :=
  set_food (mkCell 12 3)
    (set_snake [mkCell 5 5; mkCell 5 6; mkCell 6 6; mkCell 6 5; mkCell 6 4]
       (set_dir (mkCell 0 (-1))
          (set_gameState playing
             (set_uiScreen none (initialState defaultStats true))))).

(** A running game: the snake lies on row 0 with its tail in the
    corner cell (0,0). *)
Definition stateTailInCorner : State :=
  set_snake [mkCell 2 0; mkCell 1 0; mkCell 0 0]
    (set_gameState playing
       (set_uiScreen none (initialState defaultStats true))).

(** The shape the simulation keeps once a game was started: every
    snake cell on the board, the pending direction a unit direction. *)
Definition wellFormed (st : State) : Prop :=
  Forall onBoard (snake st) /\ nextDir st ∈ directions.

(** The input handlers pass unit directions to [setDirection]. *)
Definition fromHandlers (c : Call) : Prop :=
  match c with
  | CallSetDirection dx dy => mkCell dx dy ∈ directions
  | _ => True
  end.

(** The shape of a game in progress, as [resetGame] sets it up: the
    snake on the board without a repeated cell and three cells longer
    than the score, which is not negative, both directions unit directions with the pending
    one no reversal of the current one, and, while the game is not
    over, the second cell of the snake one step behind the head. *)
Definition playable (st : State) : Prop :=
  Forall onBoard (snake st) /\
  NoDup (snake st) /\
  dir st ∈ directions /\
  nextDir st ∈ directions /\
  nextDir st <> opposite (dir st) /\
  (Z.of_nat (length (snake st)) = 3 + score st /\ 0 <= score st) /\
  (gameOver st = false ->
   forall head neck rest, snake st = head :: neck :: rest ->
     neck = wrappedNext head (opposite (dir st))).

(** [Math.random ()] returns values in [0, 1). *)
Definition unitInterval (rnd : nat -> Q) : Prop :=
  forall k : nat, (0 <= rnd k)%Q /\ (rnd k < 1)%Q.

(** The states the branches of [tick] leave, written out.  After a
    collision: *)
Definition afterCollision (st : State) : State :=
  set_restartHidden false
    (set_gameState over (set_gameOver true (set_dir (nextDir st) st))).

(** after a move to [next] that ate nothing: *)
Definition afterMove (next : Cell) (st : State) : State :=
  set_snake (next :: removelast (snake st)) (set_dir (nextDir st) st).

(** after a move to [next] that ate the food, when [spawnFood] then
    chose the cell [f] and left the count of random calls at [k]: *)
Definition afterMeal (next f : Cell) (k : nat) (st : State) : State :=
  mkState (score st + 1) (gameOver st) (gameState st) (uiScreen st)
    (menuIndex st) (next :: snake st) (nextDir st) (nextDir st) f
    (mkStats (Z.max (bestScore (stats st)) (score st + 1))
       (attemptsByDay (stats st)))
    (restartHidden st) k.

(** Whether a call starts a new game on the day with key [key]. *)
Definition startsOn (key : string) (c : Call) : bool :=
  match c with
  | CallStartNewGame today => bool_decide (today = key)
  | CallSelectMenuItem index today => (index =? 2) && bool_decide (today = key)
  | _ => false
  end.

(** A short session: turn up, move, pause, a tick while paused,
    resume, move. *)
Definition sessionCalls : list Call :=
  [ CallSetDirection 0 (-1); CallTick; CallTogglePause; CallTick;
    CallTogglePause; CallTick ].

(** ** Text metrics *)

Definition SCREEN_WIDTH : Z := 450.

(** [clamp(n, a, b)]: [Math.max(a, Math.min(b, n))]. *)
Definition clamp (n a b : Q) : Q := Qmax a (Qmin b n).

(** [Math.round]. *)
Definition mathRound (q : Q) : Z := Qfloor (q + (1 # 2))%Q.

(** [getUiFontScale()]. *)
Definition getUiFontScale (screenWidth : Z) : Q :=
  let s := ((inject_Z screenWidth / inject_Z SCREEN_WIDTH) * (88 # 100))%Q in
  clamp s (62 # 100) (9 # 10).

(** [px(basePx, scale)]. *)
Definition px (basePx : Z) (scale : Q) : Z :=
  Z.max 9 (Qfloor (inject_Z basePx * scale)%Q).

(** The object [getMenuMetrics] returns. *)
Record MenuMetrics : Type := mkMenuMetrics { titleY : Z; startY : Z; rowH : Z }.

(** [getMenuMetrics(fs)]. *)
Definition getMenuMetrics (fs : Q) : MenuMetrics :=
  mkMenuMetrics (mathRound (10 * fs)%Q) (mathRound (40 * fs)%Q)
    (Z.max 22 (mathRound (30 * fs)%Q)).

(** ** The input handlers of [bindInputs] *)

(** The [keydown] listener on the key with code [code]. *)
Definition keydown (rnd : nat -> Q) (code today : string) (st : State) : State :=
  if bool_decide (code = "KeyP"%string) then togglePause st
  else if bool_decide (uiScreen st = menu) then
    let st :=
      if bool_decide (code = "ArrowUp"%string)
      then set_menuIndex (Z.rem (menuIndex st + 2) 3) st else st in
    let st :=
      if bool_decide (code = "ArrowDown"%string)
      then set_menuIndex (Z.rem (menuIndex st + 1) 3) st else st in
    let st :=
      if bool_decide (code = "Enter"%string) || bool_decide (code = "Space"%string)
      then selectMenuItem rnd (menuIndex st) today st else st in
    if bool_decide (code = "Escape"%string)
    then (if bool_decide (gameState st = paused) then resumeGame st else st)
    else st
  else if bool_decide (uiScreen st = instructions)
          && (bool_decide (code = "Enter"%string)
              || bool_decide (code = "Escape"%string)
              || bool_decide (code = "Backspace"%string))
  then set_uiScreen menu st
  else
    let st :=
      if bool_decide (gameState st = playing) then
        let st := if bool_decide (code = "ArrowUp"%string)
                  then setDirection 0 (-1) st else st in
        let st := if bool_decide (code = "ArrowDown"%string)
                  then setDirection 0 1 st else st in
        let st := if bool_decide (code = "ArrowLeft"%string)
                  then setDirection (-1) 0 st else st in
        if bool_decide (code = "ArrowRight"%string)
        then setDirection 1 0 st else st
      else st in
    if bool_decide (code = "KeyR"%string) then startNewGame rnd today st else st.

(** The keypad buttons with a [pointerdown] listener. *)
Inductive Keypad : Type := key2 | key4 | key6 | key8 | keyStar.

(** The [pointerdown] listener of a keypad button. *)
Definition keypadPointerDown (k : Keypad) (st : State) : State :=
  match k with
  | key2 => if bool_decide (gameState st = playing) then setDirection 0 (-1) st else st
  | key4 => if bool_decide (gameState st = playing) then setDirection (-1) 0 st else st
  | key6 => if bool_decide (gameState st = playing) then setDirection 1 0 st else st
  | key8 => if bool_decide (gameState st = playing) then setDirection 0 1 st else st
  | keyStar => togglePause st
  end.

(** The menu row under a pointer at height [offsetY] of the canvas:
    [Math.floor((y - startY) / rowH)]. *)
Definition menuRowAt (screenWidth : Z) (offsetY : Q) : Z :=
  let metrics := getMenuMetrics (getUiFontScale screenWidth) in
  Qfloor ((offsetY - inject_Z (startY metrics)) / inject_Z (rowH metrics))%Q.

(** The [pointerdown] listener of the canvas, for a pointer at
    [(clientX, clientY)] while the canvas rectangle has its corner at
    [(rectLeft, rectTop)] and the width [rectWidth]. *)
Definition canvasPointerDown (rnd : nat -> Q) (screenWidth : Z)
    (clientX clientY rectLeft rectTop rectWidth : Q)
    (today : string) (st : State) : State :=
  if bool_decide (uiScreen st <> menu) then st
  else
    let offsetX := (clientX - rectLeft)%Q in
    let offsetY := (clientY - rectTop)%Q in
    let idx := menuRowAt screenWidth offsetY in
    if negb (Qle_bool 0 offsetX) || negb (Qle_bool offsetX rectWidth) then st
    else if (idx <? 0) || (2 <? idx) then st
    else
      let st := set_menuIndex idx st in
      selectMenuItem rnd (menuIndex st) today st.

(** The events of a session: a key press, a tap on a keypad button, on
    the restart button or on the canvas, one [tick] of the frame loop. *)
Inductive Event : Type :=
| EvKeyDown (code today : string)
| EvKeypad (k : Keypad)
| EvRestart (today : string)
| EvCanvas (screenWidth : Z) (clientX clientY rectLeft rectTop rectWidth : Q)
    (today : string)
| EvTick.

Definition handle (rnd : nat -> Q) (e : Event) (st : State) : State :=
  match e with
  | EvKeyDown code today => keydown rnd code today st
  | EvKeypad k => keypadPointerDown k st
  | EvRestart today => startNewGame rnd today st
  | EvCanvas screenWidth clientX clientY rectLeft rectTop rectWidth today =>
      canvasPointerDown rnd screenWidth clientX clientY rectLeft rectTop
        rectWidth today st
  | EvTick => stateOf (tick rnd st)
  end.

Definition handleAll (rnd : nat -> Q) (es : list Event) (st : State) : State :=
  fold_left (fun s e => handle rnd e s) es st.

(** The state the bootstrap code at the end of the file leaves. *)
Definition bootstrap (rnd : nat -> Q) (loaded : Stats) (hidden : bool) : State :=
  set_menuIndex 2
    (set_uiScreen menu
       (set_gameState idle (resetGame rnd (initialState loaded hidden)))).

(** The overlay goes with the game state: no overlay exactly while the
    game runs or is over, and the highlighted menu row is 0, 1 or 2. *)
Definition overlayConsistent (st : State) : Prop :=
  (uiScreen st = none <-> gameState st = playing \/ gameState st = over) /\
  0 <= menuIndex st <= 2.

(** A session at the keyboard: down and up in the menu, start the game
    with Enter on row 2, steer, pause, open and leave the instructions,
    resume with Escape. *)
Definition sessionEvents : list Event :=
  [ EvKeyDown "ArrowDown" "2026-11-01"; EvKeyDown "ArrowUp" "2026-11-01";
    EvKeyDown "Enter" "2026-11-01"; EvTick; EvKeyDown "ArrowUp" "2026-11-01";
    EvTick; EvKeypad keyStar; EvKeyDown "ArrowUp" "2026-11-01";
    EvKeyDown "Enter" "2026-11-01"; EvKeyDown "Backspace" "2026-11-01";
    EvKeyDown "Escape" "2026-11-01"; EvTick ]%string.

(** ** The frame loop *)

(** The two time variables of [frame], in milliseconds. *)
Record Timing : Type := mkTiming { lastMs : Q; accMs : Q }.

(** The [while] loop of [frame] for a step of [step] ms, with at most
    [fuel] passes: each pass takes one step off the accumulator and
    calls [tick]; an exception in [tick] leaves the loop. *)
Fixpoint drain (rnd : nat -> Q) (fuel : nat) (step : Z) (acc : Q) (st : State)
  : Q * Outcome :=
  match fuel with
  | O => (acc, Returned st)
  | S fuel' =>
      if Qle_bool (inject_Z step) acc then
        match tick rnd st with
        | Returned st' => drain rnd fuel' step (acc - inject_Z step)%Q st'
        | Threw st' => ((acc - inject_Z step)%Q, Threw st')
        end
      else (acc, Returned st)
  end.

(** [frame(ms)], up to its calls of [draw] and
    [requestAnimationFrame]; the step is read once, before the loop. *)
Definition frame (rnd : nat -> Q) (fuel : nat) (ms : Q) (t : Timing) (st : State)
  : Timing * Outcome :=
  let last := if Qeq_bool (lastMs t) 0 then ms else lastMs t in
  let dt := (ms - last)%Q in
  let acc := (accMs t + dt)%Q in
  if bool_decide (gameState st = playing) then
    let step := stepMsForScore (score st) in
    let (acc', out) := drain rnd fuel step acc st in
    (mkTiming ms acc', out)
  else (mkTiming ms acc, Returned st).

(** The passes the loop of [frame] makes on an accumulator [acc]. *)
Definition passes (step : Z) (acc : Q) : nat :=
  Z.to_nat (Qfloor (acc / inject_Z step)).

(** ** Wrapped text *)

(** One call [ctx.fillText(text, x, y)]. *)
Record FillText : Type := mkFillText { ftText : string; ftX : Z; ftY : Z }.

(** One pass of the loop of [drawWrappedText] on the word [w], on the
    variables [line] and [yy] and the calls of [fillText] made so far;
    [measure] is [ctx.measureText(...).width] under the current font. *)
Definition wrapStep (measure : string -> Q) (x maxWidth lineHeight : Z)
    (vars : string * Z * list FillText) (w : string)
  : string * Z * list FillText :=
  let '(line, yy, calls) := vars in
  let test :=
    if bool_decide (line = ""%string) then w
    else (line ++ " " ++ w)%string in
  if Qle_bool (measure test) (inject_Z maxWidth) || bool_decide (line = ""%string)
  then (test, yy, calls)
  else (w, yy + lineHeight, calls ++ [mkFillText line x yy]).

(** [drawWrappedText(text, x, y, maxWidth, lineHeight)] from the list
    [words] that [String(text).split(/\s+/).filter(Boolean)] yields,
    with integer positions as its callers pass them: the calls of
    [fillText] in order, and the value returned. *)
Definition drawWrappedText (measure : string -> Q) (words : list string)
    (x y maxWidth lineHeight : Z) : list FillText * Z :=
  let '(line, yy, calls) :=
    fold_left (wrapStep measure x maxWidth lineHeight) words (""%string, y, []) in
  let calls :=
    if bool_decide (line = ""%string) then calls
    else calls ++ [mkFillText line x yy] in
  (calls, yy + lineHeight).

(** A measure for the examples: 6 units for every character. *)
Definition sixPerChar (text : string) : Q :=
  inject_Z (6 * Z.of_nat (String.length text)).

(** What the loop of [drawWrappedText] keeps true after the words
    [processed]: the lines drawn so far are stacked from [y] down, one
    [lineHeight] apart, each fits [maxWidth] or is a single word, and
    with the pending [line] they spell the processed words. *)
Definition wrapInv (measure : string -> Q) (x y maxWidth lineHeight : Z)
    (processed : list string) (vars : string * Z * list FillText) : Prop :=
  let '(line, yy, calls) := vars in
  yy = y + Z.of_nat (length calls) * lineHeight /\
  (forall (j : nat) (c : FillText), calls !! j = Some c ->
     ftX c = x /\ ftY c = y + Z.of_nat j * lineHeight) /\
  (forall c : FillText, c ∈ calls ->
     Qle_bool (measure (ftText c)) (inject_Z maxWidth) = true
     \/ ftText c ∈ processed) /\
  (line = ""%string -> calls = [] /\ processed = []) /\
  (line <> ""%string ->
     processed <> [] /\
     String.concat " " (map ftText calls ++ [line]) = String.concat " " processed /\
     (Qle_bool (measure line) (inject_Z maxWidth) = true \/ line ∈ processed)).

(** ** Facts about the helpers *)

Lemma isSameCell_true_iff (a b : Cell) : isSameCell a b = true <-> a = b.
Proof.
  unfold isSameCell. destruct a as [ax ay], b as [bx by']. simpl.
  rewrite andb_true_iff, !Z.eqb_eq. split.
  - intros [-> ->]. reflexivity.
  - intros [= -> ->]. split; reflexivity.
Qed.

Lemma isSameCell_refl (a : Cell) : isSameCell a a = true.
Proof. apply isSameCell_true_iff. reflexivity. Qed.

Lemma isSameCell_false_iff (a b : Cell) : isSameCell a b = false <-> a <> b.
Proof.
  rewrite <- not_true_iff_false, isSameCell_true_iff. reflexivity.
Qed.

(** [some] with [isSameCell] against [p] is membership of [p]. *)
Lemma some_isSameCell_iff (p : Cell) (l : list Cell) :
  existsb (fun s => isSameCell s p) l = true <-> p ∈ l.
Proof.
  rewrite existsb_exists, list_elem_of_In. split.
  - intros [c [Hin Hc]]. apply isSameCell_true_iff in Hc. subst c. exact Hin.
  - intros Hin. exists p. split; [exact Hin | apply isSameCell_refl].
Qed.

Lemma length_pop (a : Cell) (l : list Cell) :
  length (removelast (a :: l)) = length l.
Proof.
  revert a. induction l as [|b l IH]; intros a; [reflexivity|].
  change (removelast (a :: b :: l)) with (a :: removelast (b :: l)).
  change (length (a :: removelast (b :: l))) with (S (length (removelast (b :: l)))).
  rewrite IH. reflexivity.
Qed.

Lemma candidateBody_length (next : Cell) (ate : bool) (body : list Cell) :
  length (candidateBody next ate body)
  = if ate then S (length body) else length body.
Proof.
  unfold candidateBody. destruct ate; simpl negb; cbv iota.
  - reflexivity.
  - apply length_pop.
Qed.

Lemma candidateBody_head (next : Cell) (ate : bool) (body : list Cell) :
  body <> [] -> exists rest, candidateBody next ate body = next :: rest.
Proof.
  intros Hne. unfold candidateBody. destruct ate; simpl negb; cbv iota.
  - eexists. reflexivity.
  - destruct body as [|b body]; [congruence|].
    exists (removelast (b :: body)). reflexivity.
Qed.

(** The collision loop finds [next] exactly when it sits at an index
    of [nextSnake] from 1 up. *)
Lemma hitsBody_true_iff (next : Cell) (nextSnake : list Cell) :
  hitsBody next nextSnake = true
  <-> exists i : nat, (1 <= i)%nat /\ nextSnake !! i = Some next.
Proof.
  unfold hitsBody. rewrite some_isSameCell_iff, list_elem_of_lookup. split.
  - intros [j Hj]. rewrite lookup_tail in Hj. exists (S j). split; [lia | exact Hj].
  - intros [i [Hi Hl]]. destruct i as [|j]; [lia|].
    exists j. rewrite lookup_tail. exact Hl.
Qed.

Lemma hitsBody_false_iff (next : Cell) (nextSnake : list Cell) :
  hitsBody next nextSnake = false
  <-> forall i : nat, (1 <= i)%nat -> nextSnake !! i <> Some next.
Proof.
  rewrite <- not_true_iff_false, hitsBody_true_iff. split.
  - intros Hno i Hi Hl. apply Hno. exists i. split; assumption.
  - intros Hall [i [Hi Hl]]. exact (Hall i Hi Hl).
Qed.

(** [spawnFood] assigns [food] and consumes random values, nothing else. *)
Lemma spawnFoodLoop_frame (rnd : nat -> Q) (tries : nat) (st : State) :
  exists (f : Cell) (k : nat),
    spawnFoodLoop rnd tries st = set_food f (set_randomCalls k st).
Proof.
  revert st. induction tries as [|n IH]; intros st.
  - exists (mkCell 0 0), (randomCalls st). destruct st; reflexivity.
  - simpl. destruct (existsb _ _).
    + destruct (IH (set_randomCalls (S (S (randomCalls st))) st)) as [f [k Hk]].
      exists f, k. rewrite Hk. reflexivity.
    + eexists _, _. reflexivity.
Qed.

Lemma spawnFood_frame (rnd : nat -> Q) (st : State) :
  exists (f : Cell) (k : nat),
    spawnFood rnd st = set_food f (set_randomCalls k st).
Proof. apply spawnFoodLoop_frame. Qed.

(** [tick] on a running game with a non-empty snake, past its guard
    and its read of [snake[0]]. *)
Lemma tick_running (rnd : nat -> Q) (st : State) (head : Cell) (body : list Cell) :
  gameState st = playing -> gameOver st = false -> snake st = head :: body ->
  tick rnd st =
    let st1 := set_dir (nextDir st) st in
    let next := wrappedNext head (nextDir st) in
    let ate := isSameCell next (food st) in
    let nextSnake := candidateBody next ate (snake st) in
    if hitsBody next nextSnake
    then Returned (set_restartHidden false (set_gameState over (set_gameOver true st1)))
    else
      let st2 := set_snake nextSnake st1 in
      if ate
      then Returned (maybeUpdateBest (spawnFood rnd (set_score (score st2 + 1) st2)))
      else Returned st2.
Proof.
  intros Hplaying Hover Hsnake. unfold tick.
  rewrite Hover, Hplaying. simpl. rewrite Hsnake. reflexivity.
Qed.

(** [tick] on a running game with an empty snake does not return. *)
Lemma tick_empty (rnd : nat -> Q) (st : State) :
  gameState st = playing -> gameOver st = false -> snake st = [] ->
  tick rnd st = Threw (set_dir (nextDir st) st).
Proof.
  intros Hplaying Hover Hsnake. unfold tick.
  rewrite Hover, Hplaying. simpl. rewrite Hsnake. reflexivity.
Qed.

(** A tick that finds the new head in the body returns here. *)
Lemma tick_collision (rnd : nat -> Q) (st : State) (head : Cell) (body : list Cell) :
  gameState st = playing -> gameOver st = false -> snake st = head :: body ->
  hitsBody (wrappedNext head (nextDir st))
    (candidateBody (wrappedNext head (nextDir st))
       (isSameCell (wrappedNext head (nextDir st)) (food st)) (snake st)) = true ->
  tick rnd st =
    Returned (set_restartHidden false
                (set_gameState over (set_gameOver true (set_dir (nextDir st) st)))).
Proof.
  intros Hplaying Hover Hsnake Hhit.
  rewrite (tick_running rnd st head body Hplaying Hover Hsnake).
  cbv zeta. rewrite Hhit. reflexivity.
Qed.

(** A tick that finds no collision commits the candidate body. *)
Lemma tick_commit (rnd : nat -> Q) (st : State) (head : Cell) (body : list Cell) :
  gameState st = playing -> gameOver st = false -> snake st = head :: body ->
  hitsBody (wrappedNext head (nextDir st))
    (candidateBody (wrappedNext head (nextDir st))
       (isSameCell (wrappedNext head (nextDir st)) (food st)) (snake st)) = false ->
  exists st', tick rnd st = Returned st' /\
    snake st' = candidateBody (wrappedNext head (nextDir st))
                  (isSameCell (wrappedNext head (nextDir st)) (food st)) (snake st) /\
    dir st' = nextDir st /\ gameOver st' = false /\ gameState st' = playing /\
    nextDir st' = nextDir st.
Proof.
  intros Hplaying Hover Hsnake Hhit.
  rewrite (tick_running rnd st head body Hplaying Hover Hsnake).
  cbv zeta. rewrite Hhit.
  destruct (isSameCell (wrappedNext head (nextDir st)) (food st)).
  - eexists. split; [reflexivity|].
    match goal with |- context [spawnFood rnd ?s] =>
      destruct (spawnFood_frame rnd s) as [f [k Hk]]; rewrite Hk end.
    unfold maybeUpdateBest. simpl.
    destruct (_ <? _); cbn; auto 6.
  - eexists. split; [reflexivity|]. cbn. auto 6.
Qed.

(** Once [gameOver] is set, no call short of [startNewGame] clears it
    or touches the snake or the score. *)
Lemma perform_after_game_over (rnd : nat -> Q) (c : Call) (st : State) :
  gameOver st = true -> invokesStartNewGame c = false ->
  gameOver (perform rnd c st) = true /\
  snake (perform rnd c st) = snake st /\
  score (perform rnd c st) = score st.
Proof.
  intros Hover Hc. destruct c; cbn [perform invokesStartNewGame] in *.
  - unfold tick. rewrite Hover. cbn [orb stateOf]. auto.
  - unfold setDirection. destruct (_ && _); cbn; auto.
  - unfold pauseGame. destruct (bool_decide _); cbn; auto.
  - unfold resumeGame. destruct (bool_decide _); cbn; auto.
  - unfold togglePause, pauseGame, resumeGame.
    repeat (destruct (bool_decide _); cbn; auto).
  - unfold selectMenuItem. rewrite Hc.
    destruct (index =? 0); [cbn; auto|].
    destruct (index =? 1); [|auto].
    unfold resumeGame.
    repeat (destruct (bool_decide _); cbn; auto).
  - discriminate.
Qed.

Lemma performAll_after_game_over (rnd : nat -> Q) (cs : list Call) (st : State) :
  gameOver st = true ->
  Forall (fun c => invokesStartNewGame c = false) cs ->
  gameOver (performAll rnd cs st) = true /\
  snake (performAll rnd cs st) = snake st /\
  score (performAll rnd cs st) = score st.
Proof.
  intros Hover Hcs. revert st Hover.
  induction Hcs as [|c cs Hc _ IH]; intros st Hover.
  - cbn. auto.
  - destruct (perform_after_game_over rnd c st Hover Hc) as [Ho [Hsn Hsc]].
    destruct (IH (perform rnd c st) Ho) as [Ho' [Hsn' Hsc']].
    unfold performAll in *. cbn [fold_left].
    rewrite Ho', Hsn', Hsc', Hsn, Hsc. auto.
Qed.

(** [resetGame] leaves the stats alone. *)
Lemma resetGame_stats (rnd : nat -> Q) (st : State) :
  stats (resetGame rnd st) = stats st.
Proof.
  unfold resetGame.
  match goal with |- context [spawnFood rnd ?s] =>
    destruct (spawnFood_frame rnd s) as [f [k Hk]]; rewrite Hk end.
  reflexivity.
Qed.

(** Pass [j] of a loop that starts two calls later is pass [j + 1]. *)
Lemma sampleAt_shift (rnd : nat -> Q) (k j : nat) :
  sampleAt rnd (S (S k)) j = sampleAt rnd k (S j).
Proof. unfold sampleAt. f_equal. lia. Qed.

Lemma sampleAt_first (rnd : nat -> Q) (k : nat) :
  sampleAt rnd k 0 = drawCellAt rnd k.
Proof. unfold sampleAt. f_equal. lia. Qed.

(** The loop of [spawnFood] takes the first sampled cell that is off
    the snake, and the fallback cell when every pass hits the snake. *)
Lemma spawnFoodLoop_first_free (rnd : nat -> Q) (tries : nat) (st : State) :
  (exists j : nat, (j < tries)%nat /\
     (forall j' : nat, (j' < j)%nat -> sampleAt rnd (randomCalls st) j' ∈ snake st) /\
     food (spawnFoodLoop rnd tries st) = sampleAt rnd (randomCalls st) j /\
     food (spawnFoodLoop rnd tries st) ∉ snake st)
  \/ ((forall j : nat, (j < tries)%nat -> sampleAt rnd (randomCalls st) j ∈ snake st) /\
      food (spawnFoodLoop rnd tries st) = mkCell 0 0).
Proof.
  revert st. induction tries as [|n IH]; intros st.
  - right. split; [intros j Hj; lia | reflexivity].
  - cbn [spawnFoodLoop]. cbv zeta.
    change (snake (set_randomCalls (S (S (randomCalls st))) st)) with (snake st).
    destruct (existsb (fun s => isSameCell s (drawCellAt rnd (randomCalls st))) (snake st))
      eqn:Hhit.
    + apply some_isSameCell_iff in Hhit. rewrite <- sampleAt_first in Hhit.
      destruct (IH (set_randomCalls (S (S (randomCalls st))) st)) as [[j [Hj [Hbefore [Hfood Hfree]]]] | [Hall Hfood]];
        cbn [randomCalls snake set_randomCalls] in *.
      * left. exists (S j). split; [lia|]. split; [|split].
        -- intros j' Hj'. destruct j' as [|j']; [exact Hhit|].
           rewrite <- sampleAt_shift. apply Hbefore. lia.
        -- rewrite Hfood. apply sampleAt_shift.
        -- exact Hfree.
      * right. split; [|exact Hfood].
        intros j Hj. destruct j as [|j]; [exact Hhit|].
        rewrite <- sampleAt_shift. apply Hall. lia.
    + left. exists 0%nat. split; [lia|]. split; [intros j' Hj'; lia|].
      cbn [food set_food]. rewrite sampleAt_first. split; [reflexivity|].
      intros Hin. apply some_isSameCell_iff in Hin. congruence.
Qed.

(** One wrapped step in a unit direction stays on the board. *)
Lemma wrappedNext_onBoard (head d : Cell) :
  onBoard head -> d ∈ directions -> onBoard (wrappedNext head d).
Proof.
  intros [Hx Hy] Hd.
  unfold onBoard, wrappedNext, directions, GRID_COLS, GRID_ROWS in *.
  cbn [x y].
  assert (Hcases : (x d = 1 /\ y d = 0) \/ (x d = -1 /\ y d = 0)
                   \/ (x d = 0 /\ y d = 1) \/ (x d = 0 /\ y d = -1)).
  { apply list_elem_of_In in Hd. cbn [In] in Hd.
    destruct Hd as [<-|[<-|[<-|[<-|[]]]]]; cbn; lia. }
  split; apply Z.rem_bound_pos; lia.
Qed.

Lemma Forall_pop (P : Cell -> Prop) (l : list Cell) :
  Forall P l -> Forall P (removelast l).
Proof.
  induction 1 as [|a l Ha Hl IH]; [constructor|].
  destruct l as [|b l]; [constructor|].
  change (removelast (a :: b :: l)) with (a :: removelast (b :: l)).
  constructor; assumption.
Qed.

Lemma candidateBody_onBoard (next : Cell) (ate : bool) (body : list Cell) :
  onBoard next -> Forall onBoard body ->
  Forall onBoard (candidateBody next ate body).
Proof.
  intros Hnext Hbody. unfold candidateBody.
  destruct ate; cbn [negb]; [|apply Forall_pop]; constructor; assumption.
Qed.

(** [resetGame] written out: it keeps the menu variables and the
    stats, and sets everything else. *)
Lemma resetGame_eq (rnd : nat -> Q) (st : State) :
  exists (f : Cell) (k : nat),
    resetGame rnd st
    = mkState 0 false (gameState st) (uiScreen st) (menuIndex st)
        [mkCell 9 8; mkCell 8 8; mkCell 7 8] (mkCell 1 0) (mkCell 1 0) f
        (stats st) true k.
Proof.
  unfold resetGame.
  match goal with |- context [spawnFood rnd ?s] =>
    destruct (spawnFood_frame rnd s) as [f [k Hk]]; rewrite Hk end.
  exists f, k. reflexivity.
Qed.

Lemma tick_wellFormed (rnd : nat -> Q) (st : State) :
  wellFormed st -> wellFormed (stateOf (tick rnd st)).
Proof.
  intros [Hsnake Hnext].
  destruct (gameOver st) eqn:Hover.
  { unfold tick. rewrite Hover. split; assumption. }
  destruct (decide (gameState st = playing)) as [Hplaying|Hother].
  2: { unfold tick. rewrite Hover. cbn [orb].
       rewrite bool_decide_eq_true_2 by exact Hother. split; assumption. }
  destruct (snake st) as [|head body] eqn:Hs.
  { rewrite (tick_empty rnd st Hplaying Hover Hs).
    split; cbn; [rewrite Hs; constructor | exact Hnext]. }
  destruct (hitsBody (wrappedNext head (nextDir st))
              (candidateBody (wrappedNext head (nextDir st))
                 (isSameCell (wrappedNext head (nextDir st)) (food st)) (snake st)))
    eqn:Hhit.
  - rewrite (tick_collision rnd st head body Hplaying Hover Hs Hhit).
    split; cbn; [rewrite Hs; exact Hsnake | exact Hnext].
  - destruct (tick_commit rnd st head body Hplaying Hover Hs Hhit)
      as [st' [Htick [Hbody [_ [_ [_ Hnd]]]]]].
    rewrite Htick. cbn [stateOf]. split.
    + rewrite Hbody, Hs. apply candidateBody_onBoard.
      * apply wrappedNext_onBoard; [|exact Hnext].
        exact (Forall_inv Hsnake).
      * exact Hsnake.
    + rewrite Hnd. exact Hnext.
Qed.

Lemma startNewGame_wellFormed (rnd : nat -> Q) (today : string) (st : State) :
  wellFormed (startNewGame rnd today st).
Proof.
  unfold startNewGame, recordAttemptStart.
  destruct (resetGame_eq rnd st) as [f [k ->]].
  split.
  - change (Forall onBoard [mkCell 9 8; mkCell 8 8; mkCell 7 8]).
    unfold onBoard, GRID_COLS, GRID_ROWS.
    repeat (apply Forall_cons_2; [cbn [x y]; lia|]). apply Forall_nil_2.
  - apply list_elem_of_In. cbn. auto.
Qed.

(** Every call the handlers and the frame loop make keeps the snake on
    the board and the pending direction a unit direction; [startNewGame]
    brings this shape about from any state. *)
Lemma perform_wellFormed (rnd : nat -> Q) (c : Call) (st : State) :
  fromHandlers c ->
  wellFormed st \/ (exists today, c = CallStartNewGame today) ->
  wellFormed (perform rnd c st).
Proof.
  intros Hc [Hwf | [today ->]]; [|apply startNewGame_wellFormed].
  destruct c; cbn [perform fromHandlers] in *.
  - apply tick_wellFormed. exact Hwf.
  - unfold setDirection. destruct (_ && _); [exact Hwf|].
    destruct Hwf as [Hsn _]. split; [exact Hsn | exact Hc].
  - unfold pauseGame. destruct (bool_decide _); exact Hwf.
  - unfold resumeGame. destruct (bool_decide _); exact Hwf.
  - unfold togglePause, pauseGame, resumeGame.
    repeat (destruct (bool_decide _)); exact Hwf.
  - unfold selectMenuItem, resumeGame.
    destruct (index =? 0); [exact Hwf|].
    destruct (index =? 1).
    + repeat (destruct (bool_decide _)); exact Hwf.
    + destruct (index =? 2); [apply startNewGame_wellFormed | exact Hwf].
  - apply startNewGame_wellFormed.
Qed.

(** So the snake of a started game stays on the board, whatever the
    handlers and the frame loop do next. *)
Lemma performAll_wellFormed (rnd : nat -> Q) (cs : list Call) (st : State) :
  wellFormed st -> Forall fromHandlers cs -> wellFormed (performAll rnd cs st).
Proof.
  intros Hwf Hcs. revert st Hwf.
  induction Hcs as [|c cs Hc _ IH]; intros st Hwf; [exact Hwf|].
  unfold performAll in *. cbn [fold_left].
  apply IH. apply perform_wellFormed; [exact Hc | left; exact Hwf].
Qed.

(** ** The claims *)

(** C1. A tick of a running game that finds no self collision returns,
    and the snake it leaves is one cell longer than before when the new
    head is the food cell, and as long as before otherwise. *)
Theorem tick_length (rnd : nat -> Q) (st : State) (head : Cell) (body : list Cell) :
  gameState st = playing -> gameOver st = false -> snake st = head :: body ->
  (forall i : nat, (1 <= i)%nat ->
     candidateBody (wrappedNext head (nextDir st))
       (isSameCell (wrappedNext head (nextDir st)) (food st)) (snake st) !! i
     <> Some (wrappedNext head (nextDir st))) ->
  exists st', tick rnd st = Returned st' /\
    (wrappedNext head (nextDir st) = food st ->
       length (snake st') = S (length (snake st))) /\
    (wrappedNext head (nextDir st) <> food st ->
       length (snake st') = length (snake st)).
Proof.
  intros Hplaying Hover Hsnake Hfree.
  apply hitsBody_false_iff in Hfree.
  destruct (tick_commit rnd st head body Hplaying Hover Hsnake Hfree)
    as [st' [Htick [Hbody _]]].
  exists st'. split; [exact Htick|].
  rewrite Hbody, candidateBody_length. split; intros Hfood.
  - apply isSameCell_true_iff in Hfood. rewrite Hfood. reflexivity.
  - apply isSameCell_false_iff in Hfood. rewrite Hfood. reflexivity.
Qed.

Lemma tick_length_witness :
  gameState stateBeforeFood = playing /\
  gameOver stateBeforeFood = false /\
  snake stateBeforeFood = mkCell 5 5 :: [mkCell 4 5; mkCell 3 5] /\
  exists st', tick zeroRandom stateBeforeFood = Returned st' /\
    (wrappedNext (mkCell 5 5) (nextDir stateBeforeFood) = food stateBeforeFood ->
       length (snake st') = S (length (snake stateBeforeFood))) /\
    (wrappedNext (mkCell 5 5) (nextDir stateBeforeFood) <> food stateBeforeFood ->
       length (snake st') = length (snake stateBeforeFood)).
Proof.
  split; [reflexivity|]. split; [reflexivity|]. split; [reflexivity|].
  apply (tick_length zeroRandom stateBeforeFood (mkCell 5 5) [mkCell 4 5; mkCell 3 5]);
    try reflexivity.
  apply hitsBody_false_iff. vm_compute. reflexivity.
Defined.

(** C2. From a head on the board and one of the four unit directions,
    the head [tick] computes lies on the board, and it is the head of
    the snake a tick commits; the head (19,5) moving right wraps to
    (0,5), and a step left from column 0 or up from row 0 lands on the
    opposite edge. *)
Theorem tick_head_on_board (head d : Cell) :
  onBoard head -> d ∈ directions ->
  onBoard (wrappedNext head d) /\
  (forall (rnd : nat -> Q) (st st' : State) (body : list Cell),
     gameState st = playing -> gameOver st = false ->
     snake st = head :: body -> nextDir st = d ->
     tick rnd st = Returned st' -> gameOver st' = false ->
     dir st' = d /\ exists rest, snake st' = wrappedNext head d :: rest) /\
  wrappedNext (mkCell 19 5) (mkCell 1 0) = mkCell 0 5 /\
  (x head = 0 -> x (wrappedNext head (mkCell (-1) 0)) = GRID_COLS - 1) /\
  (y head = 0 -> y (wrappedNext head (mkCell 0 (-1))) = GRID_ROWS - 1).
Proof.
  intros Hhead Hd. split; [|split; [|split; [|split]]].
  - apply wrappedNext_onBoard; assumption.
  - intros rnd st st' body Hplaying Hover Hsnake Hnext Htick Halive.
    subst d.
    destruct (hitsBody (wrappedNext head (nextDir st))
                (candidateBody (wrappedNext head (nextDir st))
                   (isSameCell (wrappedNext head (nextDir st)) (food st)) (snake st)))
      eqn:Hhit.
    + rewrite (tick_collision rnd st head body Hplaying Hover Hsnake Hhit) in Htick.
      injection Htick as <-. discriminate Halive.
    + destruct (tick_commit rnd st head body Hplaying Hover Hsnake Hhit)
        as [st2 [Htick2 [Hbody [Hdir _]]]].
      rewrite Htick2 in Htick. injection Htick as <-.
      split; [exact Hdir|]. rewrite Hbody.
      apply candidateBody_head. rewrite Hsnake. discriminate.
  - reflexivity.
  - intros H0. unfold wrappedNext, GRID_COLS. cbn [x y]. rewrite H0. reflexivity.
  - intros H0. unfold wrappedNext, GRID_ROWS. cbn [x y]. rewrite H0. reflexivity.
Qed.

Lemma tick_head_on_board_witness :
  onBoard (mkCell 0 0) /\ mkCell (-1) 0 ∈ directions /\
  onBoard (wrappedNext (mkCell 0 0) (mkCell (-1) 0)) /\
  wrappedNext (mkCell 0 0) (mkCell (-1) 0) = mkCell 19 0.
Proof.
  assert (Hb : onBoard (mkCell 0 0)).
  { unfold onBoard, GRID_COLS, GRID_ROWS. cbn. lia. }
  assert (Hd : mkCell (-1) 0 ∈ directions).
  { apply list_elem_of_In. cbn. auto. }
  split; [exact Hb|]. split; [exact Hd|]. split; [|reflexivity].
  exact (proj1 (tick_head_on_board (mkCell 0 0) (mkCell (-1) 0) Hb Hd)).
Defined.

(** C3. When the new head of a tick sits at an index from 1 up of the
    candidate body, the tick returns with [gameState] over and the
    game-over flag set; after any calls that do not invoke
    [startNewGame], a further tick changes nothing, and the snake and
    the score are still those of the moment of the collision. *)
Theorem collision_ends_game
    (rnd : nat -> Q) (st : State) (head : Cell) (body : list Cell) (i : nat) :
  gameState st = playing -> gameOver st = false -> snake st = head :: body ->
  (1 <= i)%nat ->
  candidateBody (wrappedNext head (nextDir st))
    (isSameCell (wrappedNext head (nextDir st)) (food st)) (snake st) !! i
  = Some (wrappedNext head (nextDir st)) ->
  exists st', tick rnd st = Returned st' /\
    gameState st' = over /\ gameOver st' = true /\
    forall cs : list Call,
      Forall (fun c => invokesStartNewGame c = false) cs ->
      tick rnd (performAll rnd cs st') = Returned (performAll rnd cs st') /\
      snake (performAll rnd cs st') = snake st' /\
      score (performAll rnd cs st') = score st'.
Proof.
  intros Hplaying Hover Hsnake Hi Hat.
  assert (Hhit : hitsBody (wrappedNext head (nextDir st))
                   (candidateBody (wrappedNext head (nextDir st))
                      (isSameCell (wrappedNext head (nextDir st)) (food st))
                      (snake st)) = true).
  { apply hitsBody_true_iff. exists i. split; assumption. }
  eexists. split; [exact (tick_collision rnd st head body Hplaying Hover Hsnake Hhit)|].
  split; [reflexivity|]. split; [reflexivity|].
  intros cs Hcs.
  match goal with |- context [performAll rnd cs ?s] =>
    destruct (performAll_after_game_over rnd cs s eq_refl Hcs) as [Ho [Hsn Hsc]] end.
  split; [|split; assumption].
  unfold tick. rewrite Ho. reflexivity.
Qed.

Lemma collision_ends_game_witness :
  gameState stateBeforeCollision = playing /\
  gameOver stateBeforeCollision = false /\
  snake stateBeforeCollision
  = mkCell 5 5 :: [mkCell 5 6; mkCell 6 6; mkCell 6 5; mkCell 6 4] /\
  wrappedNext (mkCell 5 5) (nextDir stateBeforeCollision) = mkCell 6 5 /\
  exists st', tick zeroRandom stateBeforeCollision = Returned st' /\
    gameState st' = over /\ gameOver st' = true /\
    forall cs : list Call,
      Forall (fun c => invokesStartNewGame c = false) cs ->
      tick zeroRandom (performAll zeroRandom cs st')
      = Returned (performAll zeroRandom cs st') /\
      snake (performAll zeroRandom cs st') = snake st' /\
      score (performAll zeroRandom cs st') = score st'.
Proof.
  split; [reflexivity|]. split; [reflexivity|]. split; [reflexivity|].
  split; [reflexivity|].
  apply (collision_ends_game zeroRandom stateBeforeCollision (mkCell 5 5)
           [mkCell 5 6; mkCell 6 6; mkCell 6 5; mkCell 6 4] 4);
    first [reflexivity | lia].
Defined.

(** C4, as stated, fails: with the snake on row 0, its tail in the
    corner, and [Math.random ()] returning 0 at every call, all 5000
    passes draw the cell (0,0), and the fallback puts the food on the
    tail although 317 cells of the board are free. *)
Lemma spawnFood_fallback_on_snake :
  (length (snake stateTailInCorner) < Z.to_nat (GRID_COLS * GRID_ROWS))%nat /\
  (onBoard (mkCell 7 7) /\ mkCell 7 7 ∉ snake stateTailInCorner) /\
  food (spawnFood zeroRandom stateTailInCorner) = mkCell 0 0 /\
  food (spawnFood zeroRandom stateTailInCorner) ∈ snake stateTailInCorner.
Proof.
  assert (Hfood : food (spawnFood zeroRandom stateTailInCorner) = mkCell 0 0).
  { vm_compute. reflexivity. }
  split; [vm_compute; lia|]. split; [split|split].
  - unfold onBoard, GRID_COLS, GRID_ROWS. cbn. lia.
  - intros Hin. apply some_isSameCell_iff in Hin. vm_compute in Hin. discriminate.
  - exact Hfood.
  - rewrite Hfood. apply some_isSameCell_iff. vm_compute. reflexivity.
Qed.

(** C4, amended. [spawnFood] leaves the snake as it is and puts the
    food on the first of its 5000 sampled cells that is off the snake,
    so that the food is off the snake whenever one sample is; when all
    5000 samples are snake cells the food is the fallback cell (0,0). *)
Theorem spawnFood_first_free_or_fallback (rnd : nat -> Q) (st : State) :
  snake (spawnFood rnd st) = snake st /\
  ((exists j : nat, (j < 5000)%nat /\
      (forall j' : nat, (j' < j)%nat -> sampleAt rnd (randomCalls st) j' ∈ snake st) /\
      food (spawnFood rnd st) = sampleAt rnd (randomCalls st) j /\
      food (spawnFood rnd st) ∉ snake st)
   \/ ((forall j : nat, (j < 5000)%nat -> sampleAt rnd (randomCalls st) j ∈ snake st) /\
       food (spawnFood rnd st) = mkCell 0 0)).
Proof.
  split.
  - destruct (spawnFood_frame rnd st) as [f [k Hk]]. rewrite Hk. reflexivity.
  - apply spawnFoodLoop_first_free.
Qed.

Lemma spawnFood_first_free_or_fallback_witness :
  snake (spawnFood zeroRandom stateBeforeFood) = snake stateBeforeFood /\
  ((exists j : nat, (j < 5000)%nat /\
      (forall j' : nat, (j' < j)%nat ->
         sampleAt zeroRandom (randomCalls stateBeforeFood) j' ∈ snake stateBeforeFood) /\
      food (spawnFood zeroRandom stateBeforeFood)
      = sampleAt zeroRandom (randomCalls stateBeforeFood) j /\
      food (spawnFood zeroRandom stateBeforeFood) ∉ snake stateBeforeFood)
   \/ ((forall j : nat, (j < 5000)%nat ->
          sampleAt zeroRandom (randomCalls stateBeforeFood) j ∈ snake stateBeforeFood) /\
       food (spawnFood zeroRandom stateBeforeFood) = mkCell 0 0)).
Proof. exact (spawnFood_first_free_or_fallback zeroRandom stateBeforeFood). Defined.

(** C5. [setDirection] called with the exact opposite of the current
    direction returns the state as it was; called with any other
    direction it assigns that direction to the pending direction and
    nothing else. *)
Theorem setDirection_reversal (d : Cell) (st : State) :
  setDirection (x d) (y d) st
  = (if decide (d = opposite (dir st)) then st else set_nextDir d st) /\
  nextDir (setDirection (x d) (y d) st)
  = (if decide (d = opposite (dir st)) then nextDir st else d).
Proof.
  assert (Heq : setDirection (x d) (y d) st
                = if decide (d = opposite (dir st)) then st else set_nextDir d st).
  { unfold setDirection, opposite. destruct d as [dx dy]. cbn [x y].
    destruct (decide _) as [Hd|Hd].
    - injection Hd as -> ->. rewrite !Z.eqb_refl. reflexivity.
    - destruct ((dx =? - x (dir st)) && (dy =? - y (dir st))) eqn:Hb; [|reflexivity].
      apply andb_true_iff in Hb. destruct Hb as [Hx Hy].
      apply Z.eqb_eq in Hx, Hy. subst dx dy. contradiction Hd. reflexivity. }
  split; [exact Heq|]. rewrite Heq. destruct (decide _); reflexivity.
Qed.

(** C6. On scores [0 <= s <= t]: the speed level is
    [min 10 (1 + floor (s / 5))], it does not decrease with the score
    and stays at most 10; the tick interval is
    [max 80 (220 - (level - 1) * 15)], it does not increase with the
    score and stays at least 80. *)
Theorem speed_monotone (s t : Z) :
  0 <= s -> s <= t ->
  speedLevelForScore s = Z.min 10 (1 + s / 5) /\
  stepMsForScore s = Z.max 80 (220 - (speedLevelForScore s - 1) * 15) /\
  speedLevelForScore s <= speedLevelForScore t /\
  speedLevelForScore s <= 10 /\
  stepMsForScore s >= stepMsForScore t /\
  stepMsForScore s >= 80.
Proof.
  intros Hs Hst.
  assert (Hdiv : s / 5 <= t / 5) by (apply Z.div_le_mono; lia).
  unfold stepMsForScore, speedLevelForScore. cbv zeta.
  repeat split; lia.
Qed.

Lemma speed_monotone_witness :
  0 <= 12 /\ 12 <= 47 /\
  speedLevelForScore 12 = 3 /\ speedLevelForScore 47 = 10 /\
  stepMsForScore 12 = 190 /\ stepMsForScore 47 = 85 /\
  speedLevelForScore 12 <= speedLevelForScore 47 /\
  stepMsForScore 12 >= stepMsForScore 47.
Proof.
  assert (H0 : 0 <= 12) by lia. assert (H1 : 12 <= 47) by lia.
  destruct (speed_monotone 12 47 H0 H1) as [_ [_ [Hlevel [_ [Hstep _]]]]].
  repeat split; first [assumption | reflexivity].
Defined.

(** C7. After [resetGame] the snake is (9,8), (8,8), (7,8) from the
    head, the current and the pending direction are (1,0), the score
    is 0 and the game-over flag is cleared. *)
Theorem resetGame_start (rnd : nat -> Q) (st : State) :
  snake (resetGame rnd st) = [mkCell 9 8; mkCell 8 8; mkCell 7 8] /\
  dir (resetGame rnd st) = mkCell 1 0 /\
  nextDir (resetGame rnd st) = mkCell 1 0 /\
  score (resetGame rnd st) = 0 /\
  gameOver (resetGame rnd st) = false.
Proof.
  unfold resetGame.
  match goal with |- context [spawnFood rnd ?s] =>
    destruct (spawnFood_frame rnd s) as [f [k Hk]]; rewrite Hk end.
  repeat split; reflexivity.
Qed.

(** C8. [startNewGame] adds 1 to the attempt count stored under
    today's key, a missing entry counting as 0, and leaves the count
    under every other key as it was. *)
Theorem startNewGame_counts_attempt (rnd : nat -> Q) (today : string) (st : State) :
  forall key : string,
    attemptsByDay (stats (startNewGame rnd today st)) !! key
    = if decide (key = today)
      then Some (default 0 (attemptsByDay (stats st) !! today) + 1)
      else attemptsByDay (stats st) !! key.
Proof.
  intros key. unfold startNewGame, recordAttemptStart.
  cbn [stats set_stats set_gameState set_uiScreen attemptsByDay].
  rewrite resetGame_stats.
  destruct (decide (key = today)) as [->|Hne].
  - apply lookup_insert_eq.
  - apply lookup_insert_ne. congruence.
Qed.

(** C9. [selectMenuItem(1)] on a paused game makes [gameState] playing
    and [uiScreen] none; on any other [gameState] it leaves both as
    they were. *)
Theorem selectMenuItem_continue (rnd : nat -> Q) (today : string) (st : State) :
  gameState (selectMenuItem rnd 1 today st)
  = (if decide (gameState st = paused) then playing else gameState st) /\
  uiScreen (selectMenuItem rnd 1 today st)
  = (if decide (gameState st = paused) then none else uiScreen st).
Proof.
  unfold selectMenuItem, resumeGame. cbn [Z.eqb Pos.eqb].
  split; repeat case_bool_decide; case_decide; cbn; congruence.
Qed.

(** C10. A tick that finds the new head at an index from 1 up of the
    candidate body returns with the snake, the score and the food as
    they were; it sets the game-over flag, makes [gameState] over,
    latches the pending direction as current and shows the restart
    button, and leaves every other variable as it was. *)
Theorem collision_keeps_snake_score_food
    (rnd : nat -> Q) (st : State) (head : Cell) (body : list Cell) (i : nat) :
  gameState st = playing -> gameOver st = false -> snake st = head :: body ->
  (1 <= i)%nat ->
  candidateBody (wrappedNext head (nextDir st))
    (isSameCell (wrappedNext head (nextDir st)) (food st)) (snake st) !! i
  = Some (wrappedNext head (nextDir st)) ->
  exists st', tick rnd st = Returned st' /\
    snake st' = snake st /\ score st' = score st /\ food st' = food st /\
    gameOver st' = true /\ gameState st' = over /\ dir st' = nextDir st /\
    restartHidden st' = false /\
    nextDir st' = nextDir st /\ uiScreen st' = uiScreen st /\
    menuIndex st' = menuIndex st /\ stats st' = stats st /\
    randomCalls st' = randomCalls st.
Proof.
  intros Hplaying Hover Hsnake Hi Hat.
  assert (Hhit : hitsBody (wrappedNext head (nextDir st))
                   (candidateBody (wrappedNext head (nextDir st))
                      (isSameCell (wrappedNext head (nextDir st)) (food st))
                      (snake st)) = true).
  { apply hitsBody_true_iff. exists i. split; assumption. }
  eexists. split; [exact (tick_collision rnd st head body Hplaying Hover Hsnake Hhit)|].
  repeat split; reflexivity.
Qed.

Lemma collision_keeps_snake_score_food_witness :
  gameState stateBeforeCollision = playing /\
  gameOver stateBeforeCollision = false /\
  exists st', tick zeroRandom stateBeforeCollision = Returned st' /\
    snake st' = snake stateBeforeCollision /\
    score st' = score stateBeforeCollision /\
    food st' = food stateBeforeCollision /\
    gameOver st' = true /\ gameState st' = over /\
    dir st' = nextDir stateBeforeCollision /\
    restartHidden st' = false /\
    nextDir st' = nextDir stateBeforeCollision /\
    uiScreen st' = uiScreen stateBeforeCollision /\
    menuIndex st' = menuIndex stateBeforeCollision /\
    stats st' = stats stateBeforeCollision /\
    randomCalls st' = randomCalls stateBeforeCollision.
Proof.
  split; [reflexivity|]. split; [reflexivity|].
  apply (collision_keeps_snake_score_food zeroRandom stateBeforeCollision (mkCell 5 5)
           [mkCell 5 6; mkCell 6 6; mkCell 6 5; mkCell 6 4] 4);
    first [reflexivity | lia].
Defined.

(** ** Further facts about the simulation *)

(** Case analysis on every test of an [if] in the goal and in the
    hypotheses it leaves. *)
Ltac split_ifs :=
  repeat match goal with
         | |- context [if ?c then _ else _] => destruct c eqn:?
         | H : context [if ?c then _ else _] |- _ => destruct c eqn:?
         end.

(** One wrapped coordinate after a step of -1, 0 or 1. *)
Lemma rem_wrap (n v s : Z) :
  3 <= n -> 0 <= v < n -> -1 <= s <= 1 ->
  Z.rem (v + s + n) n
  = if v + s <? 0 then n - 1 else if n <=? v + s then 0 else v + s.
Proof.
  intros Hn Hv Hs.
  rewrite Z.rem_mod_nonneg by lia.
  destruct (Z.ltb_spec (v + s) 0); [|destruct (Z.leb_spec n (v + s))].
  - replace (v + s + n) with (n - 1) by lia. apply Z.mod_small. lia.
  - replace (v + s + n) with (0 + 2 * n) by lia.
    rewrite Z.mod_add by lia. apply Z.mod_small. lia.
  - replace (v + s + n) with (v + s + 1 * n) by lia.
    rewrite Z.mod_add by lia. apply Z.mod_small. lia.
Qed.

Lemma directions_cases (d : Cell) :
  d ∈ directions ->
  d = mkCell 1 0 \/ d = mkCell (-1) 0 \/ d = mkCell 0 1 \/ d = mkCell 0 (-1).
Proof.
  intros Hd. apply list_elem_of_In in Hd. cbn [In directions] in Hd.
  destruct Hd as [<-|[<-|[<-|[<-|[]]]]]; auto.
Qed.

Lemma opposite_directions (d : Cell) : d ∈ directions -> opposite d ∈ directions.
Proof.
  intros Hd. apply list_elem_of_In.
  destruct (directions_cases d Hd) as [-> | [-> | [-> | ->]]]; cbn; auto.
Qed.

(** The wrapped step written with [rem_wrap] on both axes. *)
Lemma wrappedNext_cases (head d : Cell) :
  onBoard head -> d ∈ directions ->
  wrappedNext head d
  = mkCell (if x head + x d <? 0 then GRID_COLS - 1
            else if GRID_COLS <=? x head + x d then 0 else x head + x d)
           (if y head + y d <? 0 then GRID_ROWS - 1
            else if GRID_ROWS <=? y head + y d then 0 else y head + y d).
Proof.
  intros [Hx Hy] Hd. unfold wrappedNext. cbn [x y].
  unfold GRID_COLS, GRID_ROWS in *.
  destruct (directions_cases d Hd) as [-> | [-> | [-> | ->]]]; cbn [x y];
    rewrite !rem_wrap by lia; reflexivity.
Qed.

(** A step and the step back end on the cell they started from. *)
Lemma wrappedNext_back (head d : Cell) :
  onBoard head -> d ∈ directions ->
  wrappedNext (wrappedNext head d) (opposite d) = head.
Proof.
  intros Hb Hd.
  pose proof (wrappedNext_onBoard head d Hb Hd) as Hb'.
  rewrite (wrappedNext_cases (wrappedNext head d) (opposite d) Hb'
             (opposite_directions d Hd)).
  rewrite (wrappedNext_cases head d Hb Hd).
  destruct Hb as [Hx Hy]. destruct head as [hx hy]. cbn [x y] in *.
  unfold GRID_COLS, GRID_ROWS in *.
  destruct (directions_cases d Hd) as [-> | [-> | [-> | ->]]]; cbn [x y opposite];
    split_ifs; f_equal; lia.
Qed.

(** From one cell, different unit directions lead to different cells. *)
Lemma wrappedNext_inj (head d1 d2 : Cell) :
  onBoard head -> d1 ∈ directions -> d2 ∈ directions ->
  wrappedNext head d1 = wrappedNext head d2 -> d1 = d2.
Proof.
  intros Hb Hd1 Hd2.
  rewrite (wrappedNext_cases head d1 Hb Hd1), (wrappedNext_cases head d2 Hb Hd2).
  destruct Hb as [Hx Hy]. destruct head as [hx hy]. cbn [x y] in *.
  unfold GRID_COLS, GRID_ROWS in *.
  destruct (directions_cases d1 Hd1) as [-> | [-> | [-> | ->]]];
    destruct (directions_cases d2 Hd2) as [-> | [-> | [-> | ->]]]; cbn [x y];
    try reflexivity;
    split_ifs; intros Heq; exfalso; try (injection Heq; intros); lia.
Qed.

Lemma directions_not_reversed (d : Cell) : d ∈ directions -> d <> opposite d.
Proof.
  intros Hd. destruct (directions_cases d Hd) as [-> | [-> | [-> | ->]]];
    discriminate.
Qed.

Lemma pop_cons (a : Cell) (l : list Cell) :
  removelast (a :: l) = match l with [] => [] | _ :: _ => a :: removelast l end.
Proof. destruct l; reflexivity. Qed.

(** Popping the candidate body drops the last cell of the old snake. *)
Lemma pop_candidate (next head : Cell) (body : list Cell) :
  removelast (next :: head :: body) = next :: removelast (head :: body).
Proof. reflexivity. Qed.

Lemma elem_of_pop (c : Cell) (l : list Cell) : c ∈ removelast l -> c ∈ l.
Proof.
  induction l as [|a l IH]; [intros H; exact H|].
  rewrite pop_cons. destruct l as [|b l].
  - intros H. apply not_elem_of_nil in H. contradiction.
  - intros H. apply elem_of_cons in H. destruct H as [-> | H].
    + apply list_elem_of_here.
    + apply list_elem_of_further. apply IH. exact H.
Qed.

Lemma NoDup_pop (l : list Cell) : NoDup l -> NoDup (removelast l).
Proof.
  induction 1 as [|a l Ha Hl IH]; [constructor|].
  rewrite pop_cons. destruct l as [|b l]; [constructor|].
  constructor; [|exact IH].
  intros Hin. apply Ha. apply elem_of_pop. exact Hin.
Qed.

(** [maybeUpdateBest] stores the larger of the best score and the score. *)
Lemma maybeUpdateBest_eq (st : State) :
  maybeUpdateBest st
  = set_stats (mkStats (Z.max (bestScore (stats st)) (score st))
                       (attemptsByDay (stats st))) st.
Proof.
  unfold maybeUpdateBest. destruct (Z.ltb_spec (bestScore (stats st)) (score st)).
  - rewrite Z.max_r by lia. reflexivity.
  - rewrite Z.max_l by lia. destruct st as [? ? ? ? ? ? ? ? ? [b m] ? ?].
    reflexivity.
Qed.

(** The four ways a tick can end. *)
Lemma tick_outcome (rnd : nat -> Q) (st : State) :
  ((gameOver st = true \/ gameState st <> playing) /\ tick rnd st = Returned st)
  \/ (gameOver st = false /\ gameState st = playing /\ snake st = [] /\
      tick rnd st = Threw (set_dir (nextDir st) st))
  \/ (exists head body,
        gameOver st = false /\ gameState st = playing /\ snake st = head :: body /\
        (wrappedNext head (nextDir st)
           ∈ (if isSameCell (wrappedNext head (nextDir st)) (food st)
              then snake st else removelast (snake st))) /\
        tick rnd st = Returned (afterCollision st))
  \/ (exists head body,
        gameOver st = false /\ gameState st = playing /\ snake st = head :: body /\
        wrappedNext head (nextDir st) <> food st /\
        (wrappedNext head (nextDir st) ∉ removelast (snake st)) /\
        tick rnd st = Returned (afterMove (wrappedNext head (nextDir st)) st))
  \/ (exists head body f k,
        gameOver st = false /\ gameState st = playing /\ snake st = head :: body /\
        wrappedNext head (nextDir st) = food st /\
        (wrappedNext head (nextDir st) ∉ snake st) /\
        tick rnd st = Returned (afterMeal (wrappedNext head (nextDir st)) f k st)).
Proof.
  destruct (gameOver st) eqn:Hover.
  { left. split; [left; reflexivity|]. unfold tick. rewrite Hover. reflexivity. }
  destruct (decide (gameState st = playing)) as [Hplaying|Hother].
  2: { left. split; [right; exact Hother|]. unfold tick. rewrite Hover.
       cbn [orb]. rewrite bool_decide_eq_true_2 by exact Hother. reflexivity. }
  destruct (snake st) as [|head body] eqn:Hs.
  { right. left. repeat split; try assumption. apply tick_empty; assumption. }
  right. right.
  rewrite (tick_running rnd st head body Hplaying Hover Hs). cbv zeta.
  unfold hitsBody, candidateBody. rewrite Hs.
  destruct (isSameCell (wrappedNext head (nextDir st)) (food st)) eqn:Hate;
    cbn [negb tail]; [|rewrite pop_candidate; cbn [tail]].
  - apply isSameCell_true_iff in Hate.
    destruct (existsb _ (head :: body)) eqn:Hhit.
    + left. exists head, body. apply some_isSameCell_iff in Hhit.
      rewrite (proj2 (isSameCell_true_iff _ _) Hate).
      repeat split; first [assumption | reflexivity].
    + right. right.
      match goal with |- context [spawnFood rnd ?s] =>
        destruct (spawnFood_frame rnd s) as [f [k Hk]] end.
      exists head, body, f, k. repeat split; try first [assumption | reflexivity].
      * intros Hin. apply some_isSameCell_iff in Hin. congruence.
      * rewrite Hk, maybeUpdateBest_eq. unfold afterMeal. rewrite Hs. reflexivity.
  - apply isSameCell_false_iff in Hate.
    destruct (existsb _ (removelast (head :: body))) eqn:Hhit.
    + left. exists head, body. apply some_isSameCell_iff in Hhit.
      rewrite (proj2 (isSameCell_false_iff _ _) Hate).
      repeat split; first [assumption | reflexivity].
    + right. left. exists head, body.
      repeat split; try first [assumption | reflexivity].
      * intros Hin. apply some_isSameCell_iff in Hin. congruence.
      * unfold afterMove. rewrite Hs. reflexivity.
Qed.

(** A call that is no tick and starts no game assigns only [gameState],
    [uiScreen], [menuIndex] and [nextDir], the last only through
    [setDirection] and never to the reverse of [dir]. *)
Lemma perform_menu_only (rnd : nat -> Q) (c : Call) (st : State) :
  c <> CallTick -> invokesStartNewGame c = false ->
  exists g u m nd,
    perform rnd c st
    = mkState (score st) (gameOver st) g u m (snake st) (dir st) nd (food st)
        (stats st) (restartHidden st) (randomCalls st) /\
    (nd = nextDir st
     \/ exists dx dy, c = CallSetDirection dx dy /\ nd = mkCell dx dy /\
                      nd <> opposite (dir st)).
Proof.
  intros Hc Hstart.
  assert (Hid : exists g u m nd,
             st = mkState (score st) (gameOver st) g u m (snake st) (dir st) nd
                    (food st) (stats st) (restartHidden st) (randomCalls st) /\
             (nd = nextDir st
              \/ exists dx dy, c = CallSetDirection dx dy /\ nd = mkCell dx dy /\
                               nd <> opposite (dir st))).
  { exists (gameState st), (uiScreen st), (menuIndex st), (nextDir st).
    split; [destruct st; reflexivity | left; reflexivity]. }
  destruct c; cbn [perform invokesStartNewGame] in *.
  - congruence.
  - unfold setDirection.
    destruct ((dx =? - x (dir st)) && (dy =? - y (dir st))) eqn:Hrev; [exact Hid|].
    exists (gameState st), (uiScreen st), (menuIndex st), (mkCell dx dy).
    split; [reflexivity|]. right. exists dx, dy. repeat split.
    intros Heq. unfold opposite in Heq. injection Heq as -> ->.
    rewrite !Z.eqb_refl in Hrev. discriminate.
  - unfold pauseGame. destruct (bool_decide _); [exact Hid|].
    eexists _, _, _, _. split; [reflexivity | left; reflexivity].
  - unfold resumeGame. destruct (bool_decide _); [exact Hid|].
    eexists _, _, _, _. split; [reflexivity | left; reflexivity].
  - unfold togglePause, pauseGame, resumeGame.
    repeat (destruct (bool_decide _); try exact Hid);
      eexists _, _, _, _; (split; [reflexivity | left; reflexivity]).
  - unfold selectMenuItem, resumeGame. rewrite Hstart.
    destruct (index =? 0).
    { eexists _, _, _, _. split; [reflexivity | left; reflexivity]. }
    destruct (index =? 1); [|exact Hid].
    repeat (destruct (bool_decide _); try exact Hid);
      eexists _, _, _, _; (split; [reflexivity | left; reflexivity]).
  - discriminate.
Qed.

Lemma startNewGame_playable (rnd : nat -> Q) (today : string) (st : State) :
  playable (startNewGame rnd today st).
Proof.
  unfold startNewGame, recordAttemptStart.
  destruct (resetGame_eq rnd st) as [f [k ->]].
  unfold playable.
  cbn [snake dir nextDir score gameOver set_stats set_gameState set_uiScreen].
  split; [|split; [|split; [|split; [|split; [|split]]]]].
  - unfold onBoard, GRID_COLS, GRID_ROWS.
    repeat (apply Forall_cons_2; [cbn [x y]; lia|]). apply Forall_nil_2.
  - apply (bool_decide_unpack _). vm_compute. exact I.
  - apply list_elem_of_In. cbn. auto.
  - apply list_elem_of_In. cbn. auto.
  - discriminate.
  - split; [reflexivity | lia].
  - intros _ head neck rest [= <- <- <-]. reflexivity.
Qed.

Lemma tick_playable (rnd : nat -> Q) (st : State) :
  playable st -> playable (stateOf (tick rnd st)).
Proof.
  intros Hp.
  destruct Hp as [Hboard [Hnodup [Hdir [Hnext [Hrev [[Hlen Hscore] Hneck]]]]]].
  destruct (tick_outcome rnd st)
    as [[_ ->] | [[_ [_ [Hs ->]]]
       | [[head [body [_ [_ [Hs [_ ->]]]]]]
       | [[head [body [Hover [_ [Hs [Hfood [Hfree ->]]]]]]]
       | [head [body [f [k [Hover [_ [Hs [Hfood [Hfree ->]]]]]]]]]]]]];
    cbn [stateOf].
  - repeat split; assumption.
  - unfold playable. cbn. rewrite Hs in *.
    repeat split; try assumption; try constructor.
    + apply directions_not_reversed. exact Hnext.
    + intros _ head neck rest [=].
  - unfold playable, afterCollision. cbn.
    repeat split; try assumption.
    + apply directions_not_reversed. exact Hnext.
    + discriminate.
  - assert (Hhead : onBoard head) by (rewrite Hs in Hboard; exact (Forall_inv Hboard)).
    unfold playable, afterMove. cbn. rewrite Hs in *.
    split; [|split; [|split; [|split; [|split; [|split]]]]]; try assumption.
    + apply Forall_cons_2; [apply wrappedNext_onBoard; assumption|].
      apply Forall_pop. exact Hboard.
    + apply NoDup_cons_2; [exact Hfree | apply NoDup_pop; exact Hnodup].
    + apply directions_not_reversed. exact Hnext.
    + split; [|exact Hscore].
      rewrite length_pop. cbn [length] in Hlen. cbn [length]. lia.
    + intros _ head' neck rest Heq. injection Heq as <- Heq.
      destruct body; [discriminate|].
      injection Heq as <- _. symmetry. apply wrappedNext_back; assumption.
  - assert (Hhead : onBoard head) by (rewrite Hs in Hboard; exact (Forall_inv Hboard)).
    unfold playable, afterMeal. cbn. rewrite Hs in *.
    split; [|split; [|split; [|split; [|split; [|split]]]]]; try assumption.
    + apply Forall_cons_2; [apply wrappedNext_onBoard; assumption | exact Hboard].
    + apply NoDup_cons_2; assumption.
    + apply directions_not_reversed. exact Hnext.
    + cbn [length] in *. lia.
    + intros _ head' neck rest Heq. injection Heq as <- <- _.
      symmetry. apply wrappedNext_back; assumption.
Qed.

(** Every call of the handlers and of the frame loop keeps a game in
    progress in shape. *)
Lemma perform_playable (rnd : nat -> Q) (c : Call) (st : State) :
  playable st -> fromHandlers c -> playable (perform rnd c st).
Proof.
  intros Hp Hc.
  assert (Htick : c = CallTick \/ c <> CallTick)
    by (destruct c; first [left; reflexivity | right; discriminate]).
  destruct Htick as [-> | Hnotick]; [apply tick_playable; exact Hp|].
  destruct (invokesStartNewGame c) eqn:Hstart.
  { destruct c; cbn [invokesStartNewGame] in Hstart; try discriminate;
      cbn [perform].
    - unfold selectMenuItem.
      destruct (index =? 0) eqn:H0; [apply Z.eqb_eq in H0, Hstart; lia|].
      destruct (index =? 1) eqn:H1; [apply Z.eqb_eq in H1, Hstart; lia|].
      rewrite Hstart. apply startNewGame_playable.
    - apply startNewGame_playable. }
  destruct (perform_menu_only rnd c st Hnotick Hstart) as [g [u [m [nd [-> Hnd]]]]].
  destruct Hp as [Hboard [Hnodup [Hdir [Hnext [Hrev [[Hlen Hscore] Hneck]]]]]].
  unfold playable. cbn.
  split; [|split; [|split; [|split; [|split; [|split]]]]]; try assumption;
    try (split; assumption).
  - destruct Hnd as [-> | [dx [dy [-> [-> _]]]]]; [exact Hnext | exact Hc].
  - destruct Hnd as [-> | [dx [dy [_ [_ Hok]]]]]; assumption.
Qed.

Lemma performAll_playable (rnd : nat -> Q) (cs : list Call) (st : State) :
  playable st -> Forall fromHandlers cs -> playable (performAll rnd cs st).
Proof.
  intros Hp Hcs. revert st Hp.
  induction Hcs as [|c cs Hc _ IH]; intros st Hp; [exact Hp|].
  unfold performAll in *. cbn [fold_left].
  apply IH. apply perform_playable; assumption.
Qed.

Lemma sessionCalls_fromHandlers : Forall fromHandlers sessionCalls.
Proof.
  unfold sessionCalls.
  repeat (apply Forall_cons_2; [first [exact I | apply list_elem_of_In; cbn; auto]|]).
  apply Forall_nil_2.
Qed.

(** ** Further properties of the simulation *)

(** X1. In a game started with [startNewGame], whatever the handlers
    and the frame loop call afterwards, no cell occurs twice in the
    snake and every cell of the snake lies on the board. *)
Theorem started_snake_no_overlap
    (rnd : nat -> Q) (today : string) (st0 : State) (cs : list Call) :
  Forall fromHandlers cs ->
  NoDup (snake (performAll rnd cs (startNewGame rnd today st0))) /\
  Forall onBoard (snake (performAll rnd cs (startNewGame rnd today st0))).
Proof.
  intros Hcs.
  destruct (performAll_playable rnd cs _ (startNewGame_playable rnd today st0) Hcs)
    as [Hboard [Hnodup _]].
  split; assumption.
Qed.

Lemma started_snake_no_overlap_witness :
  Forall fromHandlers sessionCalls /\
  NoDup (snake (performAll zeroRandom sessionCalls
                  (startNewGame zeroRandom "2026-11-01" (initialState defaultStats true)))) /\
  Forall onBoard
    (snake (performAll zeroRandom sessionCalls
              (startNewGame zeroRandom "2026-11-01" (initialState defaultStats true)))).
Proof.
  split; [exact sessionCalls_fromHandlers|].
  exact (started_snake_no_overlap zeroRandom "2026-11-01"
           (initialState defaultStats true) sessionCalls sessionCalls_fromHandlers).
Defined.

(** X2. In a started game the snake is always three cells longer than
    the score, so it is never empty and [tick] always returns: the read
    of [snake[0]] cannot fail. *)
Theorem started_length_is_score_plus_3
    (rnd : nat -> Q) (today : string) (st0 : State) (cs : list Call) :
  Forall fromHandlers cs ->
  Z.of_nat (length (snake (performAll rnd cs (startNewGame rnd today st0))))
  = 3 + score (performAll rnd cs (startNewGame rnd today st0)) /\
  0 <= score (performAll rnd cs (startNewGame rnd today st0)) /\
  exists st', tick rnd (performAll rnd cs (startNewGame rnd today st0)) = Returned st'.
Proof.
  intros Hcs.
  destruct (performAll_playable rnd cs _ (startNewGame_playable rnd today st0) Hcs)
    as [_ [_ [_ [_ [_ [[Hlen Hscore] _]]]]]].
  split; [exact Hlen|]. split; [exact Hscore|].
  destruct (tick_outcome rnd (performAll rnd cs (startNewGame rnd today st0)))
    as [[_ Ht] | [[_ [_ [Hs Ht]]]
       | [[head [body [_ [_ [_ [_ Ht]]]]]]
       | [[head [body [_ [_ [_ [_ [_ Ht]]]]]]]
       | [head [body [f [k [_ [_ [_ [_ [_ Ht]]]]]]]]]]]]];
    try (eexists; exact Ht).
  rewrite Hs in Hlen. cbn [length] in Hlen. lia.
Qed.

Lemma started_length_is_score_plus_3_witness :
  Forall fromHandlers sessionCalls /\
  Z.of_nat (length (snake (performAll zeroRandom sessionCalls
      (startNewGame zeroRandom "2026-11-01" (initialState defaultStats true)))))
  = 3 + score (performAll zeroRandom sessionCalls
      (startNewGame zeroRandom "2026-11-01" (initialState defaultStats true))) /\
  0 <= score (performAll zeroRandom sessionCalls
      (startNewGame zeroRandom "2026-11-01" (initialState defaultStats true))) /\
  exists st', tick zeroRandom (performAll zeroRandom sessionCalls
      (startNewGame zeroRandom "2026-11-01" (initialState defaultStats true)))
    = Returned st'.
Proof.
  split; [exact sessionCalls_fromHandlers|].
  exact (started_length_is_score_plus_3 zeroRandom "2026-11-01"
           (initialState defaultStats true) sessionCalls sessionCalls_fromHandlers).
Defined.

(** X3. In a started game the pending direction is never the reverse
    of the current one, and while the game is not over the next head
    is never the cell right behind the head: the guard of
    [setDirection] keeps the snake from turning back into its neck. *)
Theorem started_head_never_turns_back
    (rnd : nat -> Q) (today : string) (st0 : State) (cs : list Call) :
  Forall fromHandlers cs ->
  nextDir (performAll rnd cs (startNewGame rnd today st0))
  <> opposite (dir (performAll rnd cs (startNewGame rnd today st0))) /\
  forall head neck rest,
    gameOver (performAll rnd cs (startNewGame rnd today st0)) = false ->
    snake (performAll rnd cs (startNewGame rnd today st0)) = head :: neck :: rest ->
    wrappedNext head (nextDir (performAll rnd cs (startNewGame rnd today st0)))
    <> neck.
Proof.
  intros Hcs.
  destruct (performAll_playable rnd cs _ (startNewGame_playable rnd today st0) Hcs)
    as [Hboard [_ [Hdir [Hnext [Hrev [_ Hneck]]]]]].
  split; [exact Hrev|].
  intros head neck rest Hover Hs Hturn.
  rewrite (Hneck Hover head neck rest Hs) in Hturn.
  rewrite Hs in Hboard.
  apply Hrev.
  apply (wrappedNext_inj head); try assumption.
  - exact (Forall_inv Hboard).
  - apply opposite_directions. exact Hdir.
Qed.

Lemma started_head_never_turns_back_witness :
  Forall fromHandlers sessionCalls /\
  nextDir (performAll zeroRandom sessionCalls
      (startNewGame zeroRandom "2026-11-01" (initialState defaultStats true)))
  <> opposite (dir (performAll zeroRandom sessionCalls
      (startNewGame zeroRandom "2026-11-01" (initialState defaultStats true)))).
Proof.
  split; [exact sessionCalls_fromHandlers|].
  exact (proj1 (started_head_never_turns_back zeroRandom "2026-11-01"
                  (initialState defaultStats true) sessionCalls
                  sessionCalls_fromHandlers)).
Defined.

(** X4. A tick changes the score only by eating: either the score, the
    food, the stats and the random calls are as before, or the score
    grew by exactly 1, the old food cell became the new head in front
    of the whole old snake, the best score is the larger of the old
    best and the new score, and the attempt counts are as before. *)
Theorem tick_scores_only_by_eating (rnd : nat -> Q) (st : State) :
  (score (stateOf (tick rnd st)) = score st /\
   food (stateOf (tick rnd st)) = food st /\
   stats (stateOf (tick rnd st)) = stats st /\
   randomCalls (stateOf (tick rnd st)) = randomCalls st)
  \/ (score (stateOf (tick rnd st)) = score st + 1 /\
      snake (stateOf (tick rnd st)) = food st :: snake st /\
      bestScore (stats (stateOf (tick rnd st)))
      = Z.max (bestScore (stats st)) (score st + 1) /\
      attemptsByDay (stats (stateOf (tick rnd st))) = attemptsByDay (stats st)).
Proof.
  destruct (tick_outcome rnd st)
    as [[_ ->] | [[_ [_ [_ ->]]]
       | [[head [body [_ [_ [_ [_ ->]]]]]]
       | [[head [body [_ [_ [_ [_ [_ ->]]]]]]]
       | [head [body [f [k [_ [_ [_ [Hfood [_ ->]]]]]]]]]]]]];
    cbn [stateOf].
  - left. repeat split.
  - left. repeat split.
  - left. repeat split.
  - left. repeat split.
  - right. unfold afterMeal. cbn. rewrite Hfood. repeat split.
Qed.

Lemma lookup_pop (l : list Cell) (i : nat) :
  (S i < length l)%nat -> removelast l !! i = l !! i.
Proof.
  revert i. induction l as [|a l IH]; intros i Hi; [reflexivity|].
  rewrite pop_cons. destruct l as [|b l]; [cbn [length] in Hi; lia|].
  destruct i as [|i]; [reflexivity|].
  cbn [lookup list_lookup]. apply IH. cbn [length] in *. lia.
Qed.

(** X5. A tick that moves the snake puts the wrapped next cell at the
    head and shifts the body: the cell at place [i + 1] of the new
    snake is the cell that was at place [i], up to the cell before the
    old tail, and up to the old tail itself when the food was eaten. *)
Theorem tick_body_follows_head
    (rnd : nat -> Q) (st st' : State) (head : Cell) (body : list Cell) :
  gameState st = playing -> gameOver st = false -> snake st = head :: body ->
  tick rnd st = Returned st' -> gameOver st' = false ->
  snake st' !! 0%nat = Some (wrappedNext head (nextDir st)) /\
  (forall i : nat, (S i < length (snake st))%nat ->
     snake st' !! S i = snake st !! i) /\
  (wrappedNext head (nextDir st) = food st ->
   forall i : nat, snake st' !! S i = snake st !! i).
Proof.
  intros Hplaying Hover Hs Htick Halive.
  destruct (tick_outcome rnd st)
    as [[[Ho | Hg] _] | [[_ [_ [Hs0 _]]]
       | [[h [b [_ [_ [_ [_ Ht]]]]]]
       | [[h [b [_ [_ [Hs1 [Hfood [_ Ht]]]]]]]
       | [h [b [f [k [_ [_ [Hs1 [Hfood [_ Ht]]]]]]]]]]]]]; try congruence.
  - rewrite Ht in Htick. injection Htick as <-. discriminate Halive.
  - rewrite Ht in Htick. injection Htick as <-.
    assert (h = head) as -> by congruence.
    unfold afterMove. cbn [snake set_snake]. split; [reflexivity|].
    split; [|contradiction].
    intros i Hi. cbn [lookup list_lookup]. apply lookup_pop. exact Hi.
  - rewrite Ht in Htick. injection Htick as <-.
    assert (h = head) as -> by congruence.
    unfold afterMeal. cbn [snake]. split; [reflexivity|].
    split; intros; reflexivity.
Qed.

Lemma tick_body_follows_head_witness :
  snake stateBeforeFood = mkCell 5 5 :: [mkCell 4 5; mkCell 3 5] /\
  tick zeroRandom stateBeforeFood
  = Returned (afterMeal (mkCell 6 5) (mkCell 0 0) 2 stateBeforeFood) /\
  snake (afterMeal (mkCell 6 5) (mkCell 0 0) 2 stateBeforeFood) !! 0%nat
  = Some (wrappedNext (mkCell 5 5) (nextDir stateBeforeFood)) /\
  snake (afterMeal (mkCell 6 5) (mkCell 0 0) 2 stateBeforeFood) !! 1%nat
  = snake stateBeforeFood !! 0%nat.
Proof.
  assert (Ht : tick zeroRandom stateBeforeFood
               = Returned (afterMeal (mkCell 6 5) (mkCell 0 0) 2 stateBeforeFood))
    by (vm_compute; reflexivity).
  destruct (tick_body_follows_head zeroRandom stateBeforeFood _ (mkCell 5 5)
              [mkCell 4 5; mkCell 3 5] eq_refl eq_refl eq_refl Ht eq_refl)
    as [H0 [H1 _]].
  split; [reflexivity|]. split; [exact Ht|]. split; [exact H0|].
  apply H1. vm_compute. lia.
Defined.

(** The score and the best score after a tick. *)
Lemma tick_scores_only_by_eating_aux (rnd : nat -> Q) (st : State) :
  (score (stateOf (tick rnd st)) = score st /\
   bestScore (stats (stateOf (tick rnd st))) = bestScore (stats st))
  \/ (score (stateOf (tick rnd st)) = score st + 1 /\
      bestScore (stats (stateOf (tick rnd st)))
      = Z.max (bestScore (stats st)) (score st + 1)).
Proof.
  destruct (tick_outcome rnd st)
    as [[_ ->] | [[_ [_ [_ ->]]]
       | [[head [body [_ [_ [_ [_ ->]]]]]]
       | [[head [body [_ [_ [_ [_ [_ ->]]]]]]]
       | [head [body [f [k [_ [_ [_ [_ [_ ->]]]]]]]]]]]]];
    cbn [stateOf]; [left | left | left | left | right]; split; reflexivity.
Qed.

(** One call keeps the score at most the best score and never lowers
    the best score, once the best score is not negative. *)
Lemma perform_best (rnd : nat -> Q) (c : Call) (st : State) (low : Z) :
  0 <= low -> low <= bestScore (stats st) -> score st <= bestScore (stats st) ->
  bestScore (stats st) <= bestScore (stats (perform rnd c st)) /\
  score (perform rnd c st) <= bestScore (stats (perform rnd c st)).
Proof.
  intros Hlow Hbest Hscore.
  assert (Hstart : forall today,
             bestScore (stats st) <= bestScore (stats (startNewGame rnd today st)) /\
             score (startNewGame rnd today st)
             <= bestScore (stats (startNewGame rnd today st))).
  { intros today. unfold startNewGame, recordAttemptStart.
    destruct (resetGame_eq rnd st) as [f [k ->]]. cbn. lia. }
  destruct c; cbn [perform].
  - destruct (tick_scores_only_by_eating_aux rnd st) as [[-> ->] | [-> ->]]; lia.
  - unfold setDirection. destruct (_ && _); cbn; lia.
  - unfold pauseGame. destruct (bool_decide _); cbn; lia.
  - unfold resumeGame. destruct (bool_decide _); cbn; lia.
  - unfold togglePause, pauseGame, resumeGame.
    repeat (destruct (bool_decide _); cbn; try lia).
  - unfold selectMenuItem, resumeGame.
    destruct (index =? 0); [cbn; lia|].
    destruct (index =? 1); [repeat (destruct (bool_decide _); cbn; try lia)|].
    destruct (index =? 2); [apply Hstart | lia].
  - apply Hstart.
Qed.

(** X6. From a state whose best score is not negative and not below
    the score, any calls leave the best score at least as high as it
    was and never below the score: the best score only grows, and the
    running score never overtakes it. *)
Theorem best_score_only_grows (rnd : nat -> Q) (cs : list Call) (st : State) :
  0 <= bestScore (stats st) -> score st <= bestScore (stats st) ->
  bestScore (stats st) <= bestScore (stats (performAll rnd cs st)) /\
  score (performAll rnd cs st) <= bestScore (stats (performAll rnd cs st)).
Proof.
  intros Hbest Hscore.
  enough (Hgen : forall low, 0 <= low -> low <= bestScore (stats st) ->
                   low <= bestScore (stats (performAll rnd cs st)) /\
                   score (performAll rnd cs st)
                   <= bestScore (stats (performAll rnd cs st))).
  { apply (Hgen (bestScore (stats st))); lia. }
  intros low Hlow. revert st Hscore Hbest.
  induction cs as [|c cs IH]; intros st Hscore Hbest Hle; [cbn; lia|].
  unfold performAll in *. cbn [fold_left].
  destruct (perform_best rnd c st low Hlow Hle Hscore) as [Hup Hsc].
  apply IH; lia.
Qed.

Lemma best_score_only_grows_witness :
  0 <= bestScore (stats stateBeforeFood) /\
  score stateBeforeFood <= bestScore (stats stateBeforeFood) /\
  bestScore (stats stateBeforeFood)
  <= bestScore (stats (performAll zeroRandom sessionCalls stateBeforeFood)) /\
  score (performAll zeroRandom sessionCalls stateBeforeFood)
  <= bestScore (stats (performAll zeroRandom sessionCalls stateBeforeFood)).
Proof.
  assert (H0 : 0 <= bestScore (stats stateBeforeFood)) by (vm_compute; discriminate).
  assert (H1 : score stateBeforeFood <= bestScore (stats stateBeforeFood))
    by (vm_compute; discriminate).
  split; [exact H0|]. split; [exact H1|].
  exact (best_score_only_grows zeroRandom sessionCalls stateBeforeFood H0 H1).
Defined.

(** A tick leaves the attempt counts alone. *)
Lemma tick_attempts (rnd : nat -> Q) (st : State) :
  attemptsByDay (stats (stateOf (tick rnd st))) = attemptsByDay (stats st).
Proof.
  destruct (tick_outcome rnd st)
    as [[_ ->] | [[_ [_ [_ ->]]]
       | [[head [body [_ [_ [_ [_ ->]]]]]]
       | [[head [body [_ [_ [_ [_ [_ ->]]]]]]]
       | [head [body [f [k [_ [_ [_ [_ [_ ->]]]]]]]]]]]]];
    reflexivity.
Qed.

(** The attempt count under [key] after one call. *)
Lemma perform_attempts (rnd : nat -> Q) (c : Call) (st : State) (key : string) :
  default 0 (attemptsByDay (stats (perform rnd c st)) !! key)
  = default 0 (attemptsByDay (stats st) !! key)
    + (if startsOn key c then 1 else 0).
Proof.
  assert (Hstart : forall today,
             default 0 (attemptsByDay (stats (startNewGame rnd today st)) !! key)
             = default 0 (attemptsByDay (stats st) !! key)
               + (if bool_decide (today = key) then 1 else 0)).
  { intros today. unfold startNewGame, recordAttemptStart.
    destruct (resetGame_eq rnd st) as [f [k ->]].
    cbn [stats set_stats set_gameState set_uiScreen attemptsByDay].
    case_bool_decide as Hk.
    - subst key. rewrite lookup_insert_eq. reflexivity.
    - rewrite lookup_insert_ne by exact Hk. lia. }
  destruct c; cbn [perform startsOn].
  - rewrite tick_attempts. lia.
  - unfold setDirection. destruct (_ && _); cbn; lia.
  - unfold pauseGame. destruct (bool_decide _); cbn; lia.
  - unfold resumeGame. destruct (bool_decide _); cbn; lia.
  - unfold togglePause, pauseGame, resumeGame.
    repeat (destruct (bool_decide _); cbn; try lia).
  - unfold selectMenuItem, resumeGame.
    destruct (index =? 0) eqn:H0.
    { apply Z.eqb_eq in H0. subst index. cbn. lia. }
    destruct (index =? 1) eqn:H1.
    { apply Z.eqb_eq in H1. subst index. cbn [Z.eqb Pos.eqb andb].
      repeat (destruct (bool_decide (gameState st = paused));
              destruct (bool_decide (gameState st <> paused)); cbn; try lia). }
    destruct (index =? 2); cbn [andb]; [apply Hstart | lia].
  - apply Hstart.
Qed.

(** X7. After any calls, the attempt count under a date key, a missing
    entry counting as 0, is the count before plus the number of calls
    that started a new game on that date, directly or through menu
    row 2; no other call changes an attempt count. *)
Theorem attempts_count_new_games
    (rnd : nat -> Q) (cs : list Call) (st : State) (key : string) :
  default 0 (attemptsByDay (stats (performAll rnd cs st)) !! key)
  = default 0 (attemptsByDay (stats st) !! key)
    + Z.of_nat (length (List.filter (startsOn key) cs)).
Proof.
  revert st. induction cs as [|c cs IH]; intros st; [cbn; lia|].
  unfold performAll in *. cbn [fold_left List.filter].
  rewrite IH, perform_attempts.
  destruct (startsOn key c); cbn [length]; lia.
Qed.

(** X8. Pausing a running game freezes it: any number of ticks leave
    the paused state as it is, and resuming then gives back the state
    from before the pause, with only the menu highlight moved to row 1. *)
Theorem pause_freezes_game (rnd : nat -> Q) (n : nat) (st : State) :
  gameState st = playing -> uiScreen st = none ->
  performAll rnd (replicate n CallTick) (pauseGame st) = pauseGame st /\
  resumeGame (performAll rnd (replicate n CallTick) (pauseGame st))
  = set_menuIndex 1 st.
Proof.
  intros Hplaying Hnone.
  assert (Hfrozen : performAll rnd (replicate n CallTick) (pauseGame st)
                    = pauseGame st).
  { induction n as [|n IH]; [reflexivity|].
    unfold performAll in *. cbn [replicate fold_left perform].
    replace (stateOf (tick rnd (pauseGame st))) with (pauseGame st); [exact IH|].
    unfold pauseGame. rewrite Hplaying. cbn [bool_decide].
    unfold tick. rewrite bool_decide_eq_false_2 by (intros H; apply H; reflexivity).
    cbn [gameState set_menuIndex set_uiScreen set_gameState].
    rewrite bool_decide_eq_true_2 by discriminate.
    rewrite orb_true_r. reflexivity. }
  split; [exact Hfrozen|]. rewrite Hfrozen.
  unfold resumeGame, pauseGame. rewrite Hplaying.
  rewrite bool_decide_eq_false_2 by (intros H; apply H; reflexivity).
  cbn [gameState set_menuIndex set_uiScreen set_gameState].
  rewrite bool_decide_eq_false_2 by (intros H; apply H; reflexivity).
  destruct st. cbn in *. subst. reflexivity.
Qed.

Lemma pause_freezes_game_witness :
  gameState stateBeforeFood = playing /\ uiScreen stateBeforeFood = none /\
  performAll zeroRandom (replicate 3 CallTick) (pauseGame stateBeforeFood)
  = pauseGame stateBeforeFood /\
  resumeGame (performAll zeroRandom (replicate 3 CallTick) (pauseGame stateBeforeFood))
  = set_menuIndex 1 stateBeforeFood.
Proof.
  split; [reflexivity|]. split; [reflexivity|].
  exact (pause_freezes_game zeroRandom 3 stateBeforeFood eq_refl eq_refl).
Defined.

(** X9. Two calls of [togglePause] in a row bring a running game back
    to running with no overlay and a paused game back to paused with
    the menu, in both cases with the highlight on row 1; on an idle or
    finished game [togglePause] does nothing. *)
Theorem togglePause_twice (st : State) :
  togglePause (togglePause st)
  = match gameState st with
    | playing => set_menuIndex 1 (set_uiScreen none st)
    | paused => set_menuIndex 1 (set_uiScreen menu st)
    | idle | over => st
    end /\
  (togglePause st = st <-> gameState st = idle \/ gameState st = over).
Proof.
  unfold togglePause, pauseGame, resumeGame.
  destruct st as [sc go gs ui mi sn d nd fd stt rh rc]. cbn [gameState].
  destruct gs; cbn; (split; [reflexivity|]);
    (split;
     [ first [intros H; discriminate H | intros _; solve [auto]]
     | first [intros [H|H]; discriminate H | intros _; reflexivity] ]).
Qed.

(** X10. The two speed functions agree for every score: the tick
    interval is 235 minus 15 times the speed level.  As the level is at
    most 10, the interval is never below 85 ms, so the lower bound of 80
    in [stepMsForScore] never takes effect. *)
Theorem stepMs_from_speedLevel (s : Z) :
  stepMsForScore s = 235 - 15 * speedLevelForScore s /\
  85 <= stepMsForScore s /\
  (stepMsForScore s = 85 <-> speedLevelForScore s = 10).
Proof.
  unfold stepMsForScore, speedLevelForScore. cbv zeta.
  repeat split; lia.
Qed.

(** X11. On scores that are not negative the level starts at 1 with an
    interval of at most 220 ms, rises by one for every five points
    below 45, and is 10 exactly from 45 points on. *)
Theorem speedLevel_steps (s : Z) :
  0 <= s ->
  1 <= speedLevelForScore s /\
  stepMsForScore s <= 220 /\
  speedLevelForScore (s + 5)
  = (if s <? 45 then speedLevelForScore s + 1 else 10) /\
  (speedLevelForScore s = 10 <-> 45 <= s).
Proof.
  intros Hs. unfold stepMsForScore, speedLevelForScore. cbv zeta.
  assert (Hdiv : (s + 5) / 5 = s / 5 + 1).
  { replace (s + 5) with (s + 1 * 5) by lia. apply Z.div_add. lia. }
  assert (Hlow : 0 <= s / 5) by (apply Z.div_pos; lia).
  assert (H45 : 45 <= s <-> 9 <= s / 5).
  { split; intros H.
    - apply (Z.div_le_mono _ _ 5) in H; [|lia]. exact H.
    - pose proof (Z.mul_div_le s 5). lia. }
  rewrite Hdiv. destruct (Z.ltb_spec s 45); repeat split; lia.
Qed.

Lemma speedLevel_steps_witness :
  0 <= 44 /\ speedLevelForScore 44 = 9 /\ speedLevelForScore (44 + 5) = 10 /\
  (speedLevelForScore 44 = 10 <-> 45 <= 44).
Proof.
  assert (H0 : 0 <= 44) by lia.
  destruct (speedLevel_steps 44 H0) as [_ [_ [Hstep Hten]]].
  split; [exact H0|]. split; [reflexivity|]. split; [reflexivity | exact Hten].
Defined.

(** X12. Right after [startNewGame], from whatever state it was called
    (a finished game too), the first tick returns with the game still
    running and the head moved one cell right, from (9,8) to (10,8);
    the snake keeps its tail (7,8) exactly when the food was on (10,8). *)
Theorem first_tick_of_new_game (rnd : nat -> Q) (today : string) (st : State) :
  exists st',
    tick rnd (startNewGame rnd today st) = Returned st' /\
    gameState st' = playing /\ gameOver st' = false /\
    snake st'
    = mkCell 10 8 :: mkCell 9 8 :: mkCell 8 8
      :: (if decide (food (startNewGame rnd today st) = mkCell 10 8)
          then [mkCell 7 8] else []).
Proof.
  unfold startNewGame, recordAttemptStart.
  destruct (resetGame_eq rnd st) as [f [k ->]].
  match goal with |- context [tick rnd ?s] => set (s0 := s) end.
  assert (Hs : snake s0 = mkCell 9 8 :: [mkCell 8 8; mkCell 7 8]) by reflexivity.
  assert (Hnext : wrappedNext (mkCell 9 8) (nextDir s0) = mkCell 10 8) by reflexivity.
  assert (Hf : food s0 = f) by reflexivity.
  rewrite (tick_running rnd s0 (mkCell 9 8) [mkCell 8 8; mkCell 7 8] eq_refl eq_refl Hs).
  cbv zeta. rewrite Hnext, Hs, Hf.
  destruct (decide (f = mkCell 10 8)) as [-> | Hne].
  - change (isSameCell (mkCell 10 8) (mkCell 10 8)) with true.
    change (hitsBody (mkCell 10 8)
              (candidateBody (mkCell 10 8) true
                 [mkCell 9 8; mkCell 8 8; mkCell 7 8])) with false.
    cbv iota.
    match goal with |- context [spawnFood rnd ?s] =>
      destruct (spawnFood_frame rnd s) as [f' [k' Hk]]; rewrite Hk end.
    rewrite maybeUpdateBest_eq. eexists. split; [reflexivity|].
    repeat split.
  - apply isSameCell_false_iff in Hne.
    assert (Hne' : isSameCell (mkCell 10 8) f = false).
    { apply isSameCell_false_iff. apply isSameCell_false_iff in Hne. congruence. }
    rewrite Hne'.
    change (hitsBody (mkCell 10 8)
              (candidateBody (mkCell 10 8) false
                 [mkCell 9 8; mkCell 8 8; mkCell 7 8])) with false.
    cbv iota. eexists. split; [reflexivity|].
    repeat split.
Qed.

(** [randInt (r, 0, top)] on a value of the unit interval. *)
Lemma randInt_range_aux (r : Q) (top : Z) :
  (0 <= r)%Q -> (r < 1)%Q -> 0 <= top -> 0 <= randInt r 0 top <= top.
Proof.
  intros H0 H1 Htop. unfold randInt.
  set (n := top - 0 + 1).
  assert (Hn : (0 < inject_Z n)%Q).
  { change 0%Q with (inject_Z 0). rewrite <- Zlt_Qlt. unfold n. lia. }
  assert (Hlow : 0 <= Qfloor (r * inject_Z n)).
  { change 0 with (Qfloor (inject_Z 0)). apply Qfloor_resp_le.
    change (inject_Z 0) with 0%Q.
    apply Qmult_le_0_compat; [exact H0 | apply Qlt_le_weak; exact Hn]. }
  assert (Hhigh : Qfloor (r * inject_Z n) < n).
  { rewrite Zlt_Qlt.
    apply (Qle_lt_trans _ (r * inject_Z n)); [apply Qfloor_le|].
    apply (Qlt_le_trans _ (1 * inject_Z n));
      [apply Qmult_lt_compat_r; assumption|].
    rewrite Qmult_1_l. apply Qle_refl. }
  unfold n in *. lia.
Qed.

(** X13. On a value of [Math.random ()], which lies in [0, 1), and a
    range with [min <= maxInclusive], [randInt] returns an integer in
    the range, both ends included. *)
Theorem randInt_in_range (r : Q) (min maxInclusive : Z) :
  (0 <= r)%Q -> (r < 1)%Q -> min <= maxInclusive ->
  min <= randInt r min maxInclusive <= maxInclusive.
Proof.
  intros H0 H1 Hrange. unfold randInt.
  set (n := maxInclusive - min + 1).
  assert (Hn : (0 < inject_Z n)%Q).
  { change 0%Q with (inject_Z 0). rewrite <- Zlt_Qlt. unfold n. lia. }
  assert (Hlow : 0 <= Qfloor (r * inject_Z n)).
  { change 0 with (Qfloor (inject_Z 0)). apply Qfloor_resp_le.
    change (inject_Z 0) with 0%Q.
    apply Qmult_le_0_compat; [exact H0 | apply Qlt_le_weak; exact Hn]. }
  assert (Hhigh : Qfloor (r * inject_Z n) < n).
  { rewrite Zlt_Qlt.
    apply (Qle_lt_trans _ (r * inject_Z n)); [apply Qfloor_le|].
    apply (Qlt_le_trans _ (1 * inject_Z n));
      [apply Qmult_lt_compat_r; assumption|].
    rewrite Qmult_1_l. apply Qle_refl. }
  unfold n in *. lia.
Qed.

Lemma randInt_in_range_witness :
  (0 <= 19 # 20)%Q /\ (19 # 20 < 1)%Q /\ 0 <= GRID_COLS - 1 /\
  0 <= randInt (19 # 20) 0 (GRID_COLS - 1) <= GRID_COLS - 1 /\
  randInt (19 # 20) 0 (GRID_COLS - 1) = 19.
Proof.
  assert (H0 : (0 <= 19 # 20)%Q) by (vm_compute; discriminate).
  assert (H1 : (19 # 20 < 1)%Q) by (vm_compute; reflexivity).
  assert (H2 : 0 <= GRID_COLS - 1) by (vm_compute; discriminate).
  split; [exact H0|]. split; [exact H1|]. split; [exact H2|].
  split; [|reflexivity].
  exact (randInt_in_range (19 # 20) 0 (GRID_COLS - 1) H0 H1 H2).
Defined.

Lemma drawCellAt_onBoard (rnd : nat -> Q) (k : nat) :
  unitInterval rnd -> onBoard (drawCellAt rnd k).
Proof.
  intros Hrnd. unfold onBoard, drawCellAt. cbn [x y].
  destruct (Hrnd k) as [Hk0 Hk1]. destruct (Hrnd (S k)) as [Hs0 Hs1].
  assert (Hc : 0 <= GRID_COLS - 1) by (unfold GRID_COLS; lia).
  assert (Hr : 0 <= GRID_ROWS - 1) by (unfold GRID_ROWS; lia).
  pose proof (randInt_range_aux (rnd k) (GRID_COLS - 1) Hk0 Hk1 Hc) as Hx.
  pose proof (randInt_range_aux (rnd (S k)) (GRID_ROWS - 1) Hs0 Hs1 Hr) as Hy.
  unfold GRID_COLS, GRID_ROWS in *. lia.
Qed.

(** X14. When [Math.random ()] returns values in [0, 1), the food cell
    that [spawnFood] chooses lies on the board, whether it was sampled
    or is the fallback. *)
Theorem spawnFood_on_board (rnd : nat -> Q) (st : State) :
  unitInterval rnd -> onBoard (food (spawnFood rnd st)).
Proof.
  intros Hrnd.
  destruct (spawnFoodLoop_first_free rnd 5000 st)
    as [[j [_ [_ [Hfood _]]]] | [_ Hfood]];
    unfold spawnFood; rewrite Hfood.
  - apply drawCellAt_onBoard. exact Hrnd.
  - unfold onBoard, GRID_COLS, GRID_ROWS. cbn [x y]. lia.
Qed.

Lemma zeroRandom_unitInterval : unitInterval zeroRandom.
Proof. intros k. split; vm_compute; [discriminate | reflexivity]. Qed.

Lemma spawnFood_on_board_witness :
  unitInterval zeroRandom /\
  onBoard (food (spawnFood zeroRandom stateTailInCorner)).
Proof.
  split; [exact zeroRandom_unitInterval|].
  exact (spawnFood_on_board zeroRandom stateTailInCorner zeroRandom_unitInterval).
Defined.

(** ** Facts about the input handlers *)

Lemma startNewGame_overlay (rnd : nat -> Q) (today : string) (st : State) :
  gameState (startNewGame rnd today st) = playing /\
  uiScreen (startNewGame rnd today st) = none /\
  menuIndex (startNewGame rnd today st) = menuIndex st.
Proof.
  unfold startNewGame, recordAttemptStart.
  destruct (resetGame_eq rnd st) as [f [k ->]]. repeat split.
Qed.

Lemma tick_overlay (rnd : nat -> Q) (st : State) :
  uiScreen (stateOf (tick rnd st)) = uiScreen st /\
  menuIndex (stateOf (tick rnd st)) = menuIndex st /\
  (gameState (stateOf (tick rnd st)) = gameState st
   \/ (gameState st = playing /\ gameState (stateOf (tick rnd st)) = over)).
Proof.
  destruct (tick_outcome rnd st)
    as [[_ ->] | [[_ [_ [_ ->]]]
       | [[head [body [_ [Hplaying [_ [_ ->]]]]]]
       | [[head [body [_ [_ [_ [_ [_ ->]]]]]]]
       | [head [body [f [k [_ [_ [_ [_ [_ ->]]]]]]]]]]]]];
    cbn [stateOf]; repeat split; auto.
Qed.

Lemma overlay_tick (rnd : nat -> Q) (st : State) :
  overlayConsistent st -> overlayConsistent (stateOf (tick rnd st)).
Proof.
  intros [Hui Hidx]. unfold overlayConsistent.
  destruct (tick_overlay rnd st) as [-> [-> Hg]].
  split; [|exact Hidx].
  destruct Hg as [-> | [Hplaying ->]]; [exact Hui|].
  split; [auto|]. intros _. apply Hui. auto.
Qed.

Lemma overlay_startNewGame (rnd : nat -> Q) (today : string) (st : State) :
  0 <= menuIndex st <= 2 -> overlayConsistent (startNewGame rnd today st).
Proof.
  intros Hidx. destruct (startNewGame_overlay rnd today st) as [Hg [Hu Hm]].
  unfold overlayConsistent. rewrite Hg, Hu, Hm. split; [|exact Hidx].
  split; auto.
Qed.

Lemma overlay_setDirection (dx dy : Z) (st : State) :
  overlayConsistent st -> overlayConsistent (setDirection dx dy st).
Proof.
  intros H. unfold setDirection. destruct (_ && _); exact H.
Qed.

Lemma overlay_togglePause (st : State) :
  overlayConsistent st -> overlayConsistent (togglePause st).
Proof.
  unfold overlayConsistent, togglePause, pauseGame, resumeGame.
  destruct st as [sc go gs ui mi sn d nd fd stt rh rc]. cbn.
  intros [Hui Hidx].
  destruct gs; repeat case_bool_decide; try congruence; cbn;
    (split; [|lia]); split;
    first [ intros Hx; discriminate Hx
          | intros [Hx|Hx]; discriminate Hx
          | tauto ].
Qed.

Lemma overlay_resume_if_paused (st : State) :
  overlayConsistent st ->
  overlayConsistent (if bool_decide (gameState st = paused) then resumeGame st else st).
Proof.
  unfold overlayConsistent, resumeGame.
  destruct st as [sc go gs ui mi sn d nd fd stt rh rc]. cbn.
  intros [Hui Hidx].
  destruct gs; repeat case_bool_decide; try congruence; cbn;
    (split; [|lia]); split;
    first [ intros Hx; discriminate Hx
          | intros [Hx|Hx]; discriminate Hx
          | tauto ].
Qed.

Lemma overlay_set_menuIndex (m : Z) (st : State) :
  overlayConsistent st -> 0 <= m <= 2 -> overlayConsistent (set_menuIndex m st).
Proof. intros [Hui _] Hm. split; [exact Hui | exact Hm]. Qed.

Lemma overlay_selectMenuItem (rnd : nat -> Q) (index : Z) (today : string) (st : State) :
  overlayConsistent st -> uiScreen st = menu ->
  overlayConsistent (selectMenuItem rnd index today st).
Proof.
  intros Hov Hmenu. unfold selectMenuItem.
  destruct (index =? 0).
  { destruct Hov as [Hui Hidx]. split; [|exact Hidx]. cbn.
    split; [discriminate|]. intros Hg. apply Hui in Hg. congruence. }
  destruct (index =? 1); [apply overlay_resume_if_paused; exact Hov|].
  destruct (index =? 2); [|exact Hov].
  apply overlay_startNewGame. apply Hov.
Qed.

(** The menu highlight moves among the rows 0, 1 and 2. *)
Lemma menu_step_in_range (m k : Z) :
  0 <= m -> 0 <= k -> 0 <= Z.rem (m + k) 3 <= 2.
Proof.
  intros Hm Hk. pose proof (Z.rem_bound_pos (m + k) 3). lia.
Qed.

Lemma overlay_leave_instructions (st : State) :
  overlayConsistent st -> uiScreen st = instructions ->
  overlayConsistent (set_uiScreen menu st).
Proof.
  intros [Hui Hidx] Hins. split; [|exact Hidx]. cbn.
  split; [discriminate|]. intros Hg. apply Hui in Hg. congruence.
Qed.

Lemma overlay_resumeGame (st : State) :
  overlayConsistent st -> overlayConsistent (resumeGame st).
Proof.
  unfold overlayConsistent, resumeGame.
  destruct st as [sc go gs ui mi sn d nd fd stt rh rc]. cbn.
  intros [Hui Hidx].
  destruct gs; repeat case_bool_decide; try congruence; cbn;
    (split; [|lia]); split;
    first [ intros Hx; discriminate Hx
          | intros [Hx|Hx]; discriminate Hx
          | tauto ].
Qed.

(** Closes the goals that the case analysis of a handler leaves. *)
Ltac overlay_leaf Hov :=
  first
    [ exact Hov
    | apply overlay_resumeGame; exact Hov
    | apply overlay_togglePause; exact Hov
    | apply overlay_resume_if_paused; exact Hov
    | apply overlay_startNewGame; apply Hov
    | apply overlay_leave_instructions; assumption
    | apply overlay_selectMenuItem; [|assumption]; overlay_leaf Hov
    | apply overlay_setDirection; overlay_leaf Hov
    | apply overlay_set_menuIndex;
      [exact Hov | apply menu_step_in_range; first [apply Hov | lia]] ].

Lemma overlay_keydown (rnd : nat -> Q) (code today : string) (st : State) :
  overlayConsistent st -> overlayConsistent (keydown rnd code today st).
Proof.
  intros Hov. unfold keydown.
  case_bool_decide as HkeyP; [overlay_leaf Hov|].
  case_bool_decide as Hmenu.
  - cbv zeta.
    repeat (case_bool_decide; try congruence);
      cbn [orb menuIndex uiScreen gameState set_menuIndex];
      try overlay_leaf Hov.
  - cbv zeta.
    repeat (case_bool_decide; try congruence);
      cbn [orb andb]; try overlay_leaf Hov.
Qed.

Lemma overlay_keypad (k : Keypad) (st : State) :
  overlayConsistent st -> overlayConsistent (keypadPointerDown k st).
Proof.
  intros Hov. destruct k; cbn [keypadPointerDown];
    try case_bool_decide; overlay_leaf Hov.
Qed.

Lemma overlay_canvas (rnd : nat -> Q) (screenWidth : Z)
    (clientX clientY rectLeft rectTop rectWidth : Q) (today : string) (st : State) :
  overlayConsistent st ->
  overlayConsistent
    (canvasPointerDown rnd screenWidth clientX clientY rectLeft rectTop rectWidth
       today st).
Proof.
  intros Hov. unfold canvasPointerDown. cbv zeta.
  case_bool_decide as Hmenu; [exact Hov|].
  assert (Hm : uiScreen st = menu) by (destruct (uiScreen st); congruence).
  destruct (negb _ || negb _); [exact Hov|].
  destruct (Z.ltb_spec (menuRowAt screenWidth (clientY - rectTop)) 0) as [Hlow|Hlow];
    [exact Hov|].
  destruct (Z.ltb_spec 2 (menuRowAt screenWidth (clientY - rectTop))) as [Hhigh|Hhigh];
    [exact Hov|].
  cbn [orb]. apply overlay_selectMenuItem; [|exact Hm].
  apply overlay_set_menuIndex; [exact Hov | lia].
Qed.

Lemma overlay_handle (rnd : nat -> Q) (e : Event) (st : State) :
  overlayConsistent st -> overlayConsistent (handle rnd e st).
Proof.
  intros Hov. destruct e; cbn [handle].
  - apply overlay_keydown. exact Hov.
  - apply overlay_keypad. exact Hov.
  - apply overlay_startNewGame. apply Hov.
  - apply overlay_canvas. exact Hov.
  - apply overlay_tick. exact Hov.
Qed.

Lemma overlay_bootstrap (rnd : nat -> Q) (loaded : Stats) (hidden : bool) :
  overlayConsistent (bootstrap rnd loaded hidden).
Proof.
  unfold bootstrap.
  destruct (resetGame_eq rnd (initialState loaded hidden)) as [f [k ->]].
  split; cbn; [|lia].
  split; [discriminate | intros [H|H]; discriminate H].
Qed.

(** ** Properties of the input handlers *)

(** X15. From the state the bootstrap code leaves, after any sequence
    of key presses, taps on the keypad, the restart button or the
    canvas, and ticks: no overlay is shown exactly when the game is
    running or over (the menu or the instructions are shown exactly
    when it is idle or paused), and the highlighted menu row is 0, 1
    or 2. *)
Theorem overlay_matches_game_state
    (rnd : nat -> Q) (loaded : Stats) (hidden : bool) (es : list Event) :
  (uiScreen (handleAll rnd es (bootstrap rnd loaded hidden)) = none
   <-> gameState (handleAll rnd es (bootstrap rnd loaded hidden)) = playing
       \/ gameState (handleAll rnd es (bootstrap rnd loaded hidden)) = over) /\
  0 <= menuIndex (handleAll rnd es (bootstrap rnd loaded hidden)) <= 2.
Proof.
  change (overlayConsistent (handleAll rnd es (bootstrap rnd loaded hidden))).
  pose proof (overlay_bootstrap rnd loaded hidden) as Hov.
  revert Hov. generalize (bootstrap rnd loaded hidden).
  induction es as [|e es IH]; intros st Hov; [exact Hov|].
  unfold handleAll in *. cbn [fold_left].
  apply IH. apply overlay_handle. exact Hov.
Qed.

Lemma playable_set_menuIndex (m : Z) (st : State) :
  playable st -> playable (set_menuIndex m st).
Proof. intros H. exact H. Qed.

Lemma playable_set_uiScreen (u : UiScreen) (st : State) :
  playable st -> playable (set_uiScreen u st).
Proof. intros H. exact H. Qed.

Lemma playable_set_gameState (g : GameState) (st : State) :
  playable st -> playable (set_gameState g st).
Proof. intros H. exact H. Qed.

Lemma playable_togglePause (rnd : nat -> Q) (st : State) :
  playable st -> playable (togglePause st).
Proof. intros H. exact (perform_playable rnd CallTogglePause st H I). Qed.

Lemma playable_resumeGame (rnd : nat -> Q) (st : State) :
  playable st -> playable (resumeGame st).
Proof. intros H. exact (perform_playable rnd CallResumeGame st H I). Qed.

Lemma playable_selectMenuItem (rnd : nat -> Q) (index : Z) (today : string) (st : State) :
  playable st -> playable (selectMenuItem rnd index today st).
Proof. intros H. exact (perform_playable rnd (CallSelectMenuItem index today) st H I). Qed.

Lemma playable_setDirection (rnd : nat -> Q) (dx dy : Z) (st : State) :
  mkCell dx dy ∈ directions -> playable st -> playable (setDirection dx dy st).
Proof. intros Hd H. exact (perform_playable rnd (CallSetDirection dx dy) st H Hd). Qed.

Lemma unit_directions :
  mkCell 0 (-1) ∈ directions /\ mkCell 0 1 ∈ directions /\
  mkCell (-1) 0 ∈ directions /\ mkCell 1 0 ∈ directions.
Proof. repeat split; apply list_elem_of_In; cbn; auto. Qed.

(** Closes the goals that the case analysis of a handler leaves. *)
Ltac playable_leaf rnd Hp :=
  first
    [ exact Hp
    | apply (playable_togglePause rnd); exact Hp
    | apply (playable_resumeGame rnd); exact Hp
    | apply startNewGame_playable
    | apply playable_set_uiScreen; exact Hp
    | apply (playable_selectMenuItem rnd); playable_leaf rnd Hp
    | apply (playable_setDirection rnd); [apply unit_directions | playable_leaf rnd Hp]
    | apply playable_set_menuIndex; playable_leaf rnd Hp ].

Lemma playable_keydown (rnd : nat -> Q) (code today : string) (st : State) :
  playable st -> playable (keydown rnd code today st).
Proof.
  intros Hp. unfold keydown.
  case_bool_decide as HkeyP; [playable_leaf rnd Hp|].
  case_bool_decide as Hmenu.
  - cbv zeta.
    repeat (case_bool_decide; try congruence);
      cbn [orb menuIndex uiScreen gameState set_menuIndex];
      try playable_leaf rnd Hp.
  - cbv zeta.
    repeat (case_bool_decide; try congruence);
      cbn [orb andb]; try playable_leaf rnd Hp.
Qed.

Lemma playable_handle (rnd : nat -> Q) (e : Event) (st : State) :
  playable st -> playable (handle rnd e st).
Proof.
  intros Hp. destruct e; cbn [handle].
  - apply playable_keydown. exact Hp.
  - destruct k; cbn [keypadPointerDown]; try case_bool_decide;
      playable_leaf rnd Hp.
  - apply startNewGame_playable.
  - unfold canvasPointerDown. cbv zeta.
    case_bool_decide; [exact Hp|].
    destruct (negb _ || negb _); [exact Hp|].
    destruct (_ || _); [exact Hp|].
    apply (playable_selectMenuItem rnd). exact Hp.
  - apply tick_playable. exact Hp.
Qed.

Lemma resetGame_playable (rnd : nat -> Q) (st : State) :
  playable (resetGame rnd st).
Proof.
  destruct (resetGame_eq rnd st) as [f [k ->]].
  unfold playable. cbn [snake dir nextDir score gameOver].
  split; [|split; [|split; [|split; [|split; [|split]]]]].
  - unfold onBoard, GRID_COLS, GRID_ROWS.
    repeat (apply Forall_cons_2; [cbn [x y]; lia|]). apply Forall_nil_2.
  - apply (bool_decide_unpack _). vm_compute. exact I.
  - apply list_elem_of_In. cbn. auto.
  - apply list_elem_of_In. cbn. auto.
  - discriminate.
  - split; [reflexivity | lia].
  - intros _ head neck rest [= <- <- <-]. reflexivity.
Qed.

Lemma playable_bootstrap (rnd : nat -> Q) (loaded : Stats) (hidden : bool) :
  playable (bootstrap rnd loaded hidden).
Proof.
  unfold bootstrap.
  apply playable_set_menuIndex, playable_set_uiScreen, playable_set_gameState.
  apply resetGame_playable.
Qed.

Lemma playable_handleAll (rnd : nat -> Q) (es : list Event) (st : State) :
  playable st -> playable (handleAll rnd es st).
Proof.
  revert st. induction es as [|e es IH]; intros st Hp; [exact Hp|].
  unfold handleAll in *. cbn [fold_left].
  apply IH. apply playable_handle. exact Hp.
Qed.

(** X16. From the state the bootstrap code leaves, after any session of
    key presses, taps and ticks, the snake lies on the board without a
    repeated cell, it is three cells longer than the score, and
    [tick] returns: the frame loop never fails on an empty snake. *)
Theorem session_keeps_snake_sound
    (rnd : nat -> Q) (loaded : Stats) (hidden : bool) (es : list Event) :
  Forall onBoard (snake (handleAll rnd es (bootstrap rnd loaded hidden))) /\
  NoDup (snake (handleAll rnd es (bootstrap rnd loaded hidden))) /\
  Z.of_nat (length (snake (handleAll rnd es (bootstrap rnd loaded hidden))))
  = 3 + score (handleAll rnd es (bootstrap rnd loaded hidden)) /\
  exists st', tick rnd (handleAll rnd es (bootstrap rnd loaded hidden)) = Returned st'.
Proof.
  destruct (playable_handleAll rnd es _ (playable_bootstrap rnd loaded hidden))
    as [Hboard [Hnodup [_ [_ [_ [[Hlen Hscore] _]]]]]].
  repeat split; try assumption.
  destruct (tick_outcome rnd (handleAll rnd es (bootstrap rnd loaded hidden)))
    as [[_ Ht] | [[_ [_ [Hs Ht]]]
       | [[head [body [_ [_ [_ [_ Ht]]]]]]
       | [[head [body [_ [_ [_ [_ [_ Ht]]]]]]]
       | [head [body [f [k [_ [_ [_ [_ [_ Ht]]]]]]]]]]]]];
    try (eexists; exact Ht).
  rewrite Hs in Hlen. cbn [length] in Hlen. lia.
Qed.

Lemma set_menuIndex_same (st : State) : set_menuIndex (menuIndex st) st = st.
Proof. destruct st; reflexivity. Qed.

(** Evaluates the comparisons of the key code when the code is known. *)
Ltac decide_keys :=
  repeat match goal with
         | |- context [bool_decide (@eq string ?a ?b)] =>
             let v := eval vm_compute in (bool_decide (a = b)) in
             lazymatch v with
             | true => change (bool_decide (a = b)) with true
             | false => change (bool_decide (a = b)) with false
             end
         end;
  cbn [andb orb].

Lemma keydown_arrow_down_menu (rnd : nat -> Q) (today : string) (st : State) :
  uiScreen st = menu ->
  keydown rnd "ArrowDown" today st = set_menuIndex (Z.rem (menuIndex st + 1) 3) st.
Proof.
  intros Hmenu. unfold keydown. cbv zeta. decide_keys.
  rewrite bool_decide_eq_true_2 by exact Hmenu. reflexivity.
Qed.

Lemma keydown_arrow_up_menu (rnd : nat -> Q) (today : string) (st : State) :
  uiScreen st = menu ->
  keydown rnd "ArrowUp" today st = set_menuIndex (Z.rem (menuIndex st + 2) 3) st.
Proof.
  intros Hmenu. unfold keydown. cbv zeta. decide_keys.
  rewrite bool_decide_eq_true_2 by exact Hmenu. reflexivity.
Qed.

(** X17. While the menu is shown with a highlighted row among 0, 1, 2,
    ArrowDown moves the highlight one row down and ArrowUp one row up,
    both wrapping around; each undoes the other, three presses of
    ArrowDown come back to the same state, and nothing but the
    highlight changes. *)
Theorem menu_navigation_wraps (rnd : nat -> Q) (today : string) (st : State) :
  uiScreen st = menu -> 0 <= menuIndex st <= 2 ->
  keydown rnd "ArrowDown" today st
  = set_menuIndex ((menuIndex st + 1) mod 3) st /\
  keydown rnd "ArrowUp" today st
  = set_menuIndex ((menuIndex st - 1) mod 3) st /\
  keydown rnd "ArrowUp" today (keydown rnd "ArrowDown" today st) = st /\
  keydown rnd "ArrowDown" today (keydown rnd "ArrowUp" today st) = st /\
  keydown rnd "ArrowDown" today
    (keydown rnd "ArrowDown" today (keydown rnd "ArrowDown" today st)) = st.
Proof.
  intros Hmenu Hidx.
  rewrite (keydown_arrow_down_menu rnd today st Hmenu),
    (keydown_arrow_up_menu rnd today st Hmenu).
  repeat first
    [ rewrite (keydown_arrow_down_menu rnd today (set_menuIndex _ _)) by exact Hmenu
    | rewrite (keydown_arrow_up_menu rnd today (set_menuIndex _ _)) by exact Hmenu ].
  assert (Hm : menuIndex st = 0 \/ menuIndex st = 1 \/ menuIndex st = 2) by lia.
  destruct st as [sc go gs ui mi sn d nd fd stt rh rc]. cbn in *.
  destruct Hm as [-> | [-> | ->]]; repeat split; reflexivity.
Qed.

Lemma menu_navigation_wraps_witness :
  uiScreen (bootstrap zeroRandom defaultStats true) = menu /\
  0 <= menuIndex (bootstrap zeroRandom defaultStats true) <= 2 /\
  menuIndex (keydown zeroRandom "ArrowDown" "2026-11-01"
               (bootstrap zeroRandom defaultStats true)) = 0 /\
  keydown zeroRandom "ArrowUp" "2026-11-01"
    (keydown zeroRandom "ArrowDown" "2026-11-01"
       (bootstrap zeroRandom defaultStats true))
  = bootstrap zeroRandom defaultStats true.
Proof.
  assert (Hm : uiScreen (bootstrap zeroRandom defaultStats true) = menu)
    by (vm_compute; reflexivity).
  assert (Hi : 0 <= menuIndex (bootstrap zeroRandom defaultStats true) <= 2)
    by (vm_compute; split; discriminate).
  destruct (menu_navigation_wraps zeroRandom "2026-11-01" _ Hm Hi)
    as [Hdown [_ [Hback _]]].
  split; [exact Hm|]. split; [exact Hi|]. split; [|exact Hback].
  rewrite Hdown. vm_compute. reflexivity.
Defined.

(** X18. The key R starts a new game from every screen but the menu:
    during play, after a game over and from the instructions it calls
    [startNewGame]; while the menu is shown it changes nothing. *)
Theorem restart_key_ignored_in_menu (rnd : nat -> Q) (today : string) (st : State) :
  keydown rnd "KeyR" today st
  = if decide (uiScreen st = menu) then st else startNewGame rnd today st.
Proof.
  unfold keydown. cbv zeta. decide_keys.
  destruct (decide (uiScreen st = menu)) as [Hmenu | Hmenu].
  - rewrite bool_decide_eq_true_2 by exact Hmenu. reflexivity.
  - rewrite bool_decide_eq_false_2 by exact Hmenu.
    destruct (bool_decide (uiScreen st = instructions));
      destruct (bool_decide (gameState st = playing)); reflexivity.
Qed.

(** X19. While no overlay is shown, the keypad steers like the arrow
    keys: 2, 4, 6 and 8 do what ArrowUp, ArrowLeft, ArrowRight and
    ArrowDown do, namely [setDirection] during play and nothing
    otherwise; the star key does what the key P does on every screen. *)
Theorem keypad_matches_arrow_keys (rnd : nat -> Q) (today : string) (st : State) :
  (forall k : Keypad, uiScreen st = none ->
     keypadPointerDown k st
     = keydown rnd
         (match k with
          | key2 => "ArrowUp" | key4 => "ArrowLeft" | key6 => "ArrowRight"
          | key8 => "ArrowDown" | keyStar => "KeyP"
          end) today st) /\
  keypadPointerDown keyStar st = keydown rnd "KeyP" today st /\
  (gameState st <> playing ->
   forall k : Keypad, k <> keyStar -> keypadPointerDown k st = st).
Proof.
  split; [|split].
  - intros k Hnone. unfold keydown. cbv zeta.
    rewrite (bool_decide_eq_false_2 (uiScreen st = menu)) by congruence.
    rewrite (bool_decide_eq_false_2 (uiScreen st = instructions)) by congruence.
    destruct k; cbn [keypadPointerDown]; decide_keys;
      try destruct (bool_decide (gameState st = playing)); reflexivity.
  - reflexivity.
  - intros Hg k Hk. destruct k; cbn [keypadPointerDown];
      try (case_bool_decide; congruence). congruence.
Qed.

Lemma keypad_matches_arrow_keys_witness :
  uiScreen stateBeforeFood = none /\
  keypadPointerDown key2 stateBeforeFood
  = keydown zeroRandom "ArrowUp" "2026-11-01" stateBeforeFood /\
  nextDir (keypadPointerDown key2 stateBeforeFood) = mkCell 0 (-1).
Proof.
  split; [reflexivity|]. split; [|reflexivity].
  exact (proj1 (keypad_matches_arrow_keys zeroRandom "2026-11-01" stateBeforeFood)
           key2 eq_refl).
Defined.

(** ** Facts about the text metrics *)

Lemma Qfloor_at_least (q : Q) (low : Z) : (inject_Z low <= q)%Q -> low <= Qfloor q.
Proof.
  intros H. rewrite <- (Qfloor_Z low). apply Qfloor_resp_le. exact H.
Qed.

Lemma Qfloor_below (q : Q) (high : Z) : (q < inject_Z high)%Q -> Qfloor q < high.
Proof.
  intros H. rewrite Zlt_Qlt.
  apply (Qle_lt_trans _ q); [apply Qfloor_le | exact H].
Qed.

Lemma Qfloor_between (q : Q) (i : Z) :
  (inject_Z i <= q)%Q -> (q < inject_Z (i + 1))%Q -> Qfloor q = i.
Proof.
  intros Hlow Hhigh.
  pose proof (Qfloor_at_least q i Hlow). pose proof (Qfloor_below q (i + 1) Hhigh).
  lia.
Qed.

Lemma clamp_range (n a b : Q) :
  (a <= b)%Q -> (a <= clamp n a b)%Q /\ (clamp n a b <= b)%Q.
Proof.
  intros Hab. unfold clamp. split; [apply Q.le_max_l|].
  apply Q.max_lub; [exact Hab | apply Q.le_min_l].
Qed.

Lemma getUiFontScale_range (screenWidth : Z) :
  (62 # 100 <= getUiFontScale screenWidth)%Q /\
  (getUiFontScale screenWidth <= 9 # 10)%Q.
Proof. unfold getUiFontScale. cbv zeta. apply clamp_range. discriminate. Qed.

(** Scaling a size that is not negative by a font scale in range. *)
Lemma scaled_range (base : Z) (fs shift : Q) :
  0 <= base -> (62 # 100 <= fs)%Q -> (fs <= 9 # 10)%Q ->
  Qfloor (inject_Z base * (62 # 100) + shift)
  <= Qfloor (inject_Z base * fs + shift)
  <= Qfloor (inject_Z base * (9 # 10) + shift).
Proof.
  intros Hbase Hlow Hhigh.
  assert (Hb : (0 <= inject_Z base)%Q).
  { change 0%Q with (inject_Z 0). rewrite <- Zle_Qle. exact Hbase. }
  split; apply Qfloor_resp_le; apply Qplus_le_l;
    rewrite !(Qmult_comm (inject_Z base)); apply Qmult_le_compat_r; assumption.
Qed.

Lemma px_range (base : Z) (fs : Q) :
  0 <= base -> (62 # 100 <= fs)%Q -> (fs <= 9 # 10)%Q ->
  px base (62 # 100) <= px base fs <= px base (9 # 10).
Proof.
  intros Hbase Hlow Hhigh. unfold px.
  pose proof (scaled_range base fs 0 Hbase Hlow Hhigh) as H.
  assert (E : forall q, Qfloor (q + 0) = Qfloor q).
  { intros q. apply Qfloor_comp. apply Qplus_0_r. }
  rewrite !E in H. lia.
Qed.

Lemma mathRound_range (base : Z) (fs : Q) :
  0 <= base -> (62 # 100 <= fs)%Q -> (fs <= 9 # 10)%Q ->
  mathRound (inject_Z base * (62 # 100)) <= mathRound (inject_Z base * fs)
  <= mathRound (inject_Z base * (9 # 10)).
Proof.
  intros Hbase Hlow Hhigh. unfold mathRound.
  exact (scaled_range base fs (1 # 2) Hbase Hlow Hhigh).
Qed.

(** The row band that a height falls in: for a row height [r > 0] and
    rows starting at [s], the heights from [s + i * r] up to, but not
    including, [s + (i + 1) * r] belong to row [i]. *)
Lemma floor_div_band (offsetY : Q) (s r i : Z) :
  0 < r ->
  (inject_Z (s + i * r) <= offsetY)%Q -> (offsetY < inject_Z (s + (i + 1) * r))%Q ->
  Qfloor ((offsetY - inject_Z s) / inject_Z r) = i.
Proof.
  intros Hr Hlow Hhigh.
  assert (Hrq : (0 < inject_Z r)%Q).
  { change 0%Q with (inject_Z 0). rewrite <- Zlt_Qlt. exact Hr. }
  rewrite inject_Z_plus, inject_Z_mult in Hlow, Hhigh.
  rewrite inject_Z_plus in Hhigh. change (inject_Z 1) with 1%Q in Hhigh.
  apply Qfloor_between.
  - apply Qle_shift_div_l; [exact Hrq | lra].
  - apply Qlt_shift_div_r; [exact Hrq|].
    rewrite inject_Z_plus. change (inject_Z 1) with 1%Q. lra.
Qed.

Lemma floor_div_before (offsetY : Q) (s r : Z) :
  0 < r -> (offsetY < inject_Z s)%Q ->
  Qfloor ((offsetY - inject_Z s) / inject_Z r) < 0.
Proof.
  intros Hr Hlow.
  assert (Hrq : (0 < inject_Z r)%Q).
  { change 0%Q with (inject_Z 0). rewrite <- Zlt_Qlt. exact Hr. }
  apply Qfloor_below. change (inject_Z 0) with 0%Q.
  apply Qlt_shift_div_r; [exact Hrq | lra].
Qed.

Lemma floor_div_after (offsetY : Q) (s r : Z) :
  0 < r -> (inject_Z (s + 3 * r) <= offsetY)%Q ->
  2 < Qfloor ((offsetY - inject_Z s) / inject_Z r).
Proof.
  intros Hr Hhigh.
  assert (Hrq : (0 < inject_Z r)%Q).
  { change 0%Q with (inject_Z 0). rewrite <- Zlt_Qlt. exact Hr. }
  rewrite inject_Z_plus, inject_Z_mult in Hhigh.
  change (inject_Z 3) with 3%Q in Hhigh.
  enough (3 <= Qfloor ((offsetY - inject_Z s) / inject_Z r)) by lia.
  apply Qfloor_at_least. change (inject_Z 3) with 3%Q.
  apply Qle_shift_div_l; [exact Hrq | lra].
Qed.

Lemma rowH_positive (fs : Q) : 0 < rowH (getMenuMetrics fs).
Proof. cbn [rowH getMenuMetrics]. lia. Qed.

(** ** Properties of the text metrics and of the menu hit test *)

(** X20. [clamp(n, a, b)] with [a <= b] lies between [a] and [b] and is
    [n] itself when [n] already lies between them; with the bounds the
    wrong way round, [b < a], it is [a] whatever [n] is. *)
Theorem clamp_within_bounds (n a b : Q) :
  ((a <= b)%Q -> (a <= clamp n a b)%Q /\ (clamp n a b <= b)%Q) /\
  ((a <= n)%Q -> (n <= b)%Q -> (clamp n a b == n)%Q) /\
  ((b < a)%Q -> (clamp n a b == a)%Q).
Proof.
  split; [apply clamp_range|]. split.
  - intros Han Hnb. unfold clamp.
    rewrite (Q.min_r b n Hnb). apply Q.max_r. exact Han.
  - intros Hba. unfold clamp. apply Q.max_l.
    apply (Qle_trans _ b); [apply Q.le_min_l | apply Qlt_le_weak; exact Hba].
Qed.

Lemma clamp_within_bounds_witness :
  (62 # 100 <= 9 # 10)%Q /\
  (62 # 100 <= clamp (3 # 10) (62 # 100) (9 # 10))%Q /\
  (clamp (3 # 10) (62 # 100) (9 # 10) <= 9 # 10)%Q /\
  (clamp (3 # 10) (62 # 100) (9 # 10) == 62 # 100)%Q.
Proof.
  assert (H : (62 # 100 <= 9 # 10)%Q) by discriminate.
  destruct (proj1 (clamp_within_bounds (3 # 10) (62 # 100) (9 # 10)) H) as [Hl Hh].
  split; [exact H|]. split; [exact Hl|]. split; [exact Hh | reflexivity].
Defined.

(** X21. For every screen width the font scale lies between 0.62 and
    0.9, and so the six text sizes the drawing code asks for stay in
    fixed ranges: [px(10)] and [px(11)] are always 9, [px(13)] is 9 to
    11, [px(16)] is 9 to 14, [px(18)] is 11 to 16 and [px(22)] is 13
    to 19. *)
Theorem font_sizes_bounded (screenWidth : Z) :
  (62 # 100 <= getUiFontScale screenWidth)%Q /\
  (getUiFontScale screenWidth <= 9 # 10)%Q /\
  px 10 (getUiFontScale screenWidth) = 9 /\
  px 11 (getUiFontScale screenWidth) = 9 /\
  9 <= px 13 (getUiFontScale screenWidth) <= 11 /\
  9 <= px 16 (getUiFontScale screenWidth) <= 14 /\
  11 <= px 18 (getUiFontScale screenWidth) <= 16 /\
  13 <= px 22 (getUiFontScale screenWidth) <= 19.
Proof.
  destruct (getUiFontScale_range screenWidth) as [Hlow Hhigh].
  split; [exact Hlow|]. split; [exact Hhigh|].
  pose proof (px_range 10 _ ltac:(lia) Hlow Hhigh) as H10.
  pose proof (px_range 11 _ ltac:(lia) Hlow Hhigh) as H11.
  pose proof (px_range 13 _ ltac:(lia) Hlow Hhigh) as H13.
  pose proof (px_range 16 _ ltac:(lia) Hlow Hhigh) as H16.
  pose proof (px_range 18 _ ltac:(lia) Hlow Hhigh) as H18.
  pose proof (px_range 22 _ ltac:(lia) Hlow Hhigh) as H22.
  change (px 10 (62 # 100)) with 9 in H10. change (px 10 (9 # 10)) with 9 in H10.
  change (px 11 (62 # 100)) with 9 in H11. change (px 11 (9 # 10)) with 9 in H11.
  change (px 13 (62 # 100)) with 9 in H13. change (px 13 (9 # 10)) with 11 in H13.
  change (px 16 (62 # 100)) with 9 in H16. change (px 16 (9 # 10)) with 14 in H16.
  change (px 18 (62 # 100)) with 11 in H18. change (px 18 (9 # 10)) with 16 in H18.
  change (px 22 (62 # 100)) with 13 in H22. change (px 22 (9 # 10)) with 19 in H22.
  repeat split; lia.
Qed.

(** X22. For every screen width the menu metrics stay in fixed ranges:
    the title starts at 6 to 9, the first row at 25 to 36, and a row is
    22 to 27 high, so the three rows never collapse. *)
Theorem menu_metrics_bounded (screenWidth : Z) :
  6 <= titleY (getMenuMetrics (getUiFontScale screenWidth)) <= 9 /\
  25 <= startY (getMenuMetrics (getUiFontScale screenWidth)) <= 36 /\
  22 <= rowH (getMenuMetrics (getUiFontScale screenWidth)) <= 27.
Proof.
  destruct (getUiFontScale_range screenWidth) as [Hlow Hhigh].
  pose proof (mathRound_range 10 _ ltac:(lia) Hlow Hhigh) as H10.
  pose proof (mathRound_range 40 _ ltac:(lia) Hlow Hhigh) as H40.
  pose proof (mathRound_range 30 _ ltac:(lia) Hlow Hhigh) as H30.
  change (mathRound (inject_Z 10 * (62 # 100))) with 6 in H10.
  change (mathRound (inject_Z 10 * (9 # 10))) with 9 in H10.
  change (mathRound (inject_Z 40 * (62 # 100))) with 25 in H40.
  change (mathRound (inject_Z 40 * (9 # 10))) with 36 in H40.
  change (mathRound (inject_Z 30 * (62 # 100))) with 19 in H30.
  change (mathRound (inject_Z 30 * (9 # 10))) with 27 in H30.
  cbn [titleY startY rowH getMenuMetrics].
  change (10%Q) with (inject_Z 10). change (40%Q) with (inject_Z 40).
  change (30%Q) with (inject_Z 30).
  repeat split; lia.
Qed.

(** X23. While the menu is shown, a tap on the canvas inside its width
    and at a height in the band of row [i] (from [startY + i * rowH] up
    to, not including, [startY + (i + 1) * rowH], for [i] among 0, 1,
    2) highlights row [i] and selects it. *)
Theorem canvas_tap_selects_row
    (rnd : nat -> Q) (screenWidth : Z)
    (clientX clientY rectLeft rectTop rectWidth : Q)
    (today : string) (st : State) (i : Z) :
  uiScreen st = menu ->
  (0 <= clientX - rectLeft)%Q -> (clientX - rectLeft <= rectWidth)%Q ->
  0 <= i <= 2 ->
  (inject_Z (startY (getMenuMetrics (getUiFontScale screenWidth))
             + i * rowH (getMenuMetrics (getUiFontScale screenWidth)))
   <= clientY - rectTop)%Q ->
  (clientY - rectTop
   < inject_Z (startY (getMenuMetrics (getUiFontScale screenWidth))
               + (i + 1) * rowH (getMenuMetrics (getUiFontScale screenWidth))))%Q ->
  canvasPointerDown rnd screenWidth clientX clientY rectLeft rectTop rectWidth
    today st
  = selectMenuItem rnd i today (set_menuIndex i st).
Proof.
  intros Hmenu Hx0 Hx1 Hi Hlow Hhigh.
  unfold canvasPointerDown. cbv zeta.
  rewrite bool_decide_eq_false_2 by (intros H; apply H; exact Hmenu).
  rewrite (proj2 (Qle_bool_iff _ _) Hx0), (proj2 (Qle_bool_iff _ _) Hx1).
  cbn [negb orb].
  assert (Hrow : menuRowAt screenWidth (clientY - rectTop) = i).
  { unfold menuRowAt. cbv zeta.
    apply floor_div_band; [apply rowH_positive | exact Hlow | exact Hhigh]. }
  rewrite Hrow.
  rewrite (proj2 (Z.ltb_ge i 0)) by lia. rewrite (proj2 (Z.ltb_ge 2 i)) by lia.
  reflexivity.
Qed.

Lemma canvas_tap_selects_row_witness :
  uiScreen (bootstrap zeroRandom defaultStats true) = menu /\
  startY (getMenuMetrics (getUiFontScale 225)) = 25 /\
  rowH (getMenuMetrics (getUiFontScale 225)) = 22 /\
  canvasPointerDown zeroRandom 225 (130 # 1) (160 # 1) (100 # 1) (90 # 1) (225 # 1)
    "2026-11-01" (bootstrap zeroRandom defaultStats true)
  = selectMenuItem zeroRandom 2 "2026-11-01"
      (set_menuIndex 2 (bootstrap zeroRandom defaultStats true)).
Proof.
  split; [vm_compute; reflexivity|].
  split; [vm_compute; reflexivity|].
  split; [vm_compute; reflexivity|].
  apply (canvas_tap_selects_row zeroRandom 225 (130 # 1) (160 # 1) (100 # 1)
           (90 # 1) (225 # 1) "2026-11-01" (bootstrap zeroRandom defaultStats true) 2).
  - vm_compute. reflexivity.
  - vm_compute. discriminate.
  - vm_compute. discriminate.
  - lia.
  - vm_compute. discriminate.
  - vm_compute. reflexivity.
Defined.

(** X24. A tap on the canvas changes nothing when the menu is not
    shown, when it falls left or right of the canvas, or when its
    height lies above the first row or at or below the end of the
    third row. *)
Theorem canvas_tap_outside_rows
    (rnd : nat -> Q) (screenWidth : Z)
    (clientX clientY rectLeft rectTop rectWidth : Q)
    (today : string) (st : State) :
  uiScreen st <> menu
  \/ (clientX - rectLeft < 0)%Q
  \/ (rectWidth < clientX - rectLeft)%Q
  \/ (clientY - rectTop
      < inject_Z (startY (getMenuMetrics (getUiFontScale screenWidth))))%Q
  \/ (inject_Z (startY (getMenuMetrics (getUiFontScale screenWidth))
                + 3 * rowH (getMenuMetrics (getUiFontScale screenWidth)))
      <= clientY - rectTop)%Q ->
  canvasPointerDown rnd screenWidth clientX clientY rectLeft rectTop rectWidth
    today st
  = st.
Proof.
  intros Hout. unfold canvasPointerDown. cbv zeta.
  case_bool_decide as Hmenu; [reflexivity|].
  destruct Hout as [Hno | Hout]; [contradiction|].
  destruct (Qle_bool 0 (clientX - rectLeft)) eqn:Hx0; [|reflexivity].
  destruct (Qle_bool (clientX - rectLeft) rectWidth) eqn:Hx1; [|reflexivity].
  apply Qle_bool_iff in Hx0, Hx1. cbn [negb orb].
  destruct Hout as [Hleft | [Hright | [Habove | Hbelow]]].
  - exfalso. apply (Qlt_not_le _ _ Hleft). exact Hx0.
  - exfalso. apply (Qlt_not_le _ _ Hright). exact Hx1.
  - pose proof (floor_div_before _ _ _ (rowH_positive (getUiFontScale screenWidth))
                  Habove) as Hrow.
    fold (menuRowAt screenWidth (clientY - rectTop)) in Hrow.
    rewrite (proj2 (Z.ltb_lt _ 0) Hrow). reflexivity.
  - pose proof (floor_div_after _ _ _ (rowH_positive (getUiFontScale screenWidth))
                  Hbelow) as Hrow.
    fold (menuRowAt screenWidth (clientY - rectTop)) in Hrow.
    rewrite (proj2 (Z.ltb_lt 2 _) Hrow). rewrite orb_true_r. reflexivity.
Qed.

Lemma canvas_tap_outside_rows_witness :
  (inject_Z (startY (getMenuMetrics (getUiFontScale 225))
             + 3 * rowH (getMenuMetrics (getUiFontScale 225)))
   <= (200 # 1) - (90 # 1))%Q /\
  canvasPointerDown zeroRandom 225 (130 # 1) (200 # 1) (100 # 1) (90 # 1) (225 # 1)
    "2026-11-01" (bootstrap zeroRandom defaultStats true)
  = bootstrap zeroRandom defaultStats true.
Proof.
  assert (H : (inject_Z (startY (getMenuMetrics (getUiFontScale 225))
                         + 3 * rowH (getMenuMetrics (getUiFontScale 225)))
               <= (200 # 1) - (90 # 1))%Q) by (vm_compute; discriminate).
  split; [exact H|].
  apply (canvas_tap_outside_rows zeroRandom 225 (130 # 1) (200 # 1) (100 # 1)
           (90 # 1) (225 # 1) "2026-11-01").
  right. right. right. right. exact H.
Defined.

(** ** Facts about the frame loop *)

Lemma tick_returns_playable (rnd : nat -> Q) (st : State) :
  playable st -> exists st', tick rnd st = Returned st'.
Proof.
  intros [_ [_ [_ [_ [_ [[Hlen Hscore] _]]]]]].
  destruct (tick_outcome rnd st)
    as [[_ Ht] | [[_ [_ [Hs Ht]]]
       | [[head [body [_ [_ [_ [_ Ht]]]]]]
       | [[head [body [_ [_ [_ [_ [_ Ht]]]]]]]
       | [head [body [f [k [_ [_ [_ [_ [_ Ht]]]]]]]]]]]]];
    try (eexists; exact Ht).
  rewrite Hs in Hlen. cbn [length] in Hlen. lia.
Qed.

Lemma Qfloor_minus_1 (q : Q) : Qfloor (q - 1) = Qfloor q - 1.
Proof.
  apply Qfloor_between.
  - unfold Z.sub. rewrite inject_Z_plus, inject_Z_opp.
    change (inject_Z 1) with 1%Q.
    pose proof (Qfloor_le q). lra.
  - replace (Qfloor q - 1 + 1) with (Qfloor q) by lia.
    pose proof (Qlt_floor q) as H. rewrite inject_Z_plus in H.
    change (inject_Z 1) with 1%Q in H. lra.
Qed.

(** A pass is due: one more pass than on the accumulator it leaves. *)
Lemma passes_due (step : Z) (acc : Q) :
  0 < step -> (inject_Z step <= acc)%Q ->
  passes step acc = S (passes step (acc - inject_Z step)).
Proof.
  intros Hstep Hdue. unfold passes.
  assert (Hs : (0 < inject_Z step)%Q).
  { change 0%Q with (inject_Z 0). rewrite <- Zlt_Qlt. exact Hstep. }
  assert (Heq : ((acc - inject_Z step) / inject_Z step == acc / inject_Z step - 1)%Q).
  { field. intros H0. rewrite H0 in Hs. exact (Qlt_irrefl 0 Hs). }
  rewrite (Qfloor_comp _ _ Heq), Qfloor_minus_1.
  assert (H1 : 1 <= Qfloor (acc / inject_Z step)).
  { apply Qfloor_at_least. change (inject_Z 1) with 1%Q.
    apply Qle_shift_div_l; [exact Hs | lra]. }
  lia.
Qed.

(** No pass is due. *)
Lemma passes_none (step : Z) (acc : Q) :
  0 < step -> (acc < inject_Z step)%Q <-> passes step acc = 0%nat.
Proof.
  intros Hstep.
  assert (Hs : (0 < inject_Z step)%Q).
  { change 0%Q with (inject_Z 0). rewrite <- Zlt_Qlt. exact Hstep. }
  split.
  - intros Hless. unfold passes.
    enough (Qfloor (acc / inject_Z step) < 1) by lia.
    apply Qfloor_below. change (inject_Z 1) with 1%Q.
    apply Qlt_shift_div_r; [exact Hs | lra].
  - intros Hzero.
    destruct (Qlt_le_dec acc (inject_Z step)) as [Hless | Hdue]; [exact Hless|].
    rewrite (passes_due step acc Hstep Hdue) in Hzero. discriminate.
Qed.

(** With fuel for every due pass the loop ends by its own test, after
    as many ticks as whole steps fit into the accumulator. *)
Lemma drain_enough (rnd : nat -> Q) (fuel : nat) (step : Z) (acc : Q) (st : State) :
  0 < step -> playable st -> (passes step acc <= fuel)%nat ->
  exists acc',
    drain rnd fuel step acc st
    = (acc', Returned (performAll rnd (replicate (passes step acc) CallTick) st)) /\
    (acc' == acc - inject_Z (Z.of_nat (passes step acc) * step))%Q /\
    (acc' < inject_Z step)%Q.
Proof.
  intros Hstep. revert acc st.
  induction fuel as [|fuel IH]; intros acc st Hp Hfuel.
  - assert (Hnone : passes step acc = 0%nat) by lia.
    exists acc. rewrite Hnone. split; [reflexivity|]. split.
    + change (Z.of_nat 0) with 0. rewrite Z.mul_0_l.
      change (inject_Z 0) with 0%Q. lra.
    + apply passes_none; assumption.
  - cbn [drain]. destruct (Qle_bool (inject_Z step) acc) eqn:Hdue.
    + apply Qle_bool_iff in Hdue.
      pose proof (passes_due step acc Hstep Hdue) as Hpass.
      destruct (tick_returns_playable rnd st Hp) as [st' Htick].
      rewrite Htick.
      assert (Hp' : playable st').
      { pose proof (tick_playable rnd st Hp) as H. rewrite Htick in H. exact H. }
      destruct (IH (acc - inject_Z step)%Q st' Hp' ltac:(lia))
        as [acc' [Hrun [Hleft Hless]]].
      exists acc'. rewrite Hpass. split; [|split; [|exact Hless]].
      * rewrite Hrun. unfold performAll. cbn [replicate fold_left perform].
        rewrite Htick. reflexivity.
      * rewrite Hleft. rewrite Nat2Z.inj_succ.
        unfold Z.succ. rewrite Z.mul_add_distr_r, Z.mul_1_l.
        rewrite !inject_Z_plus. lra.
    + assert (Hless : (acc < inject_Z step)%Q).
      { apply Qnot_le_lt. intros Hle. apply Qle_bool_iff in Hle. congruence. }
      pose proof (proj1 (passes_none step acc Hstep) Hless) as Hnone.
      exists acc. rewrite Hnone. split; [reflexivity|]. split; [|exact Hless].
      change (Z.of_nat 0) with 0. rewrite Z.mul_0_l.
      change (inject_Z 0) with 0%Q. lra.
Qed.

Lemma stepMs_positive (s : Z) : 0 < stepMsForScore s.
Proof. unfold stepMsForScore. cbv zeta. lia. Qed.

(** ** Properties of the frame loop *)

(** X25. A frame of a running game, given fuel for every due pass,
    returns after running as many ticks as whole steps fit into the
    accumulated time (the step being the tick interval of the score at
    the start of the frame); it keeps the rest, which is less than one
    step and equals the accumulated time minus the steps taken, and
    records the frame time. *)
Theorem frame_runs_whole_steps
    (rnd : nat -> Q) (fuel : nat) (ms : Q) (t : Timing) (st : State) :
  gameState st = playing -> playable st ->
  (passes (stepMsForScore (score st))
     (accMs t + (ms - (if Qeq_bool (lastMs t) 0 then ms else lastMs t)))
   <= fuel)%nat ->
  exists rest,
    frame rnd fuel ms t st
    = (mkTiming ms rest,
       Returned
         (performAll rnd
            (replicate
               (passes (stepMsForScore (score st))
                  (accMs t + (ms - (if Qeq_bool (lastMs t) 0 then ms else lastMs t))))
               CallTick) st)) /\
    (rest < inject_Z (stepMsForScore (score st)))%Q /\
    (rest ==
     accMs t + (ms - (if Qeq_bool (lastMs t) 0 then ms else lastMs t))
     - inject_Z
         (Z.of_nat
            (passes (stepMsForScore (score st))
               (accMs t + (ms - (if Qeq_bool (lastMs t) 0 then ms else lastMs t))))
          * stepMsForScore (score st)))%Q.
Proof.
  intros Hplaying Hp Hfuel.
  destruct (drain_enough rnd fuel (stepMsForScore (score st)) _ st
              (stepMs_positive (score st)) Hp Hfuel)
    as [rest [Hrun [Hleft Hless]]].
  exists rest. split; [|split; assumption].
  unfold frame. cbv zeta.
  rewrite bool_decide_eq_true_2 by exact Hplaying.
  rewrite Hrun. reflexivity.
Qed.

Lemma frame_runs_whole_steps_witness :
  gameState (startNewGame zeroRandom "2026-11-01" (initialState defaultStats true))
  = playing /\
  exists rest,
    frame zeroRandom 2 (1500 # 1) (mkTiming (1000 # 1) 0)
      (startNewGame zeroRandom "2026-11-01" (initialState defaultStats true))
    = (mkTiming (1500 # 1) rest,
       Returned
         (performAll zeroRandom (replicate 2 CallTick)
            (startNewGame zeroRandom "2026-11-01" (initialState defaultStats true)))) /\
    (rest < inject_Z 220)%Q.
Proof.
  split; [vm_compute; reflexivity|].
  destruct (frame_runs_whole_steps zeroRandom 2 (1500 # 1) (mkTiming (1000 # 1) 0)
              (startNewGame zeroRandom "2026-11-01" (initialState defaultStats true)))
    as [rest [Hrun [Hless _]]].
  - vm_compute. reflexivity.
  - apply startNewGame_playable.
  - vm_compute. lia.
  - exists rest. split; [exact Hrun | exact Hless].
Defined.

Lemma resume_after_pause (st : State) :
  gameState st = playing ->
  resumeGame (pauseGame st) = set_menuIndex 1 (set_uiScreen none st).
Proof.
  intros Hplaying. unfold resumeGame, pauseGame. rewrite Hplaying.
  rewrite bool_decide_eq_false_2 by (intros H; apply H; reflexivity).
  cbn [gameState set_menuIndex set_uiScreen set_gameState].
  rewrite bool_decide_eq_false_2 by (intros H; apply H; reflexivity).
  destruct st. cbn in *. subst. reflexivity.
Qed.

Lemma passes_comp (step : Z) (acc acc' : Q) :
  (acc == acc')%Q -> passes step acc = passes step acc'.
Proof.
  intros Heq. unfold passes. f_equal. apply Qfloor_comp.
  rewrite Heq. reflexivity.
Qed.

(** X26. Time spent paused is replayed.  A frame of a paused game runs
    no tick, whatever its fuel, but still adds the elapsed time to the
    accumulator; so the first frame after resuming runs one tick for
    every whole step in all the time since the last frame before the
    pause, the time spent paused included. *)
Theorem paused_time_is_replayed
    (rnd : nat -> Q) (fuel1 fuel2 : nat) (ms1 ms2 : Q) (t : Timing) (st : State) :
  gameState st = playing -> playable st ->
  Qeq_bool (lastMs t) 0 = false -> Qeq_bool ms1 0 = false ->
  (passes (stepMsForScore (score st)) (accMs t + (ms2 - lastMs t)) <= fuel2)%nat ->
  frame rnd fuel1 ms1 t (pauseGame st)
  = (mkTiming ms1 (accMs t + (ms1 - lastMs t)), Returned (pauseGame st)) /\
  exists rest,
    frame rnd fuel2 ms2 (mkTiming ms1 (accMs t + (ms1 - lastMs t)))
      (resumeGame (pauseGame st))
    = (mkTiming ms2 rest,
       Returned
         (performAll rnd
            (replicate
               (passes (stepMsForScore (score st)) (accMs t + (ms2 - lastMs t)))
               CallTick)
            (resumeGame (pauseGame st)))) /\
    (rest < inject_Z (stepMsForScore (score st)))%Q.
Proof.
  intros Hplaying Hp Hlast Hms1 Hfuel. split.
  - unfold frame. cbv zeta. rewrite Hlast.
    rewrite bool_decide_eq_false_2; [reflexivity|].
    unfold pauseGame. rewrite Hplaying.
    rewrite bool_decide_eq_false_2 by (intros H; apply H; reflexivity).
    discriminate.
  - rewrite (resume_after_pause st Hplaying).
    set (st' := set_menuIndex 1 (set_uiScreen none st)).
    assert (Hp' : playable st') by exact Hp.
    assert (Hg' : gameState st' = playing) by exact Hplaying.
    assert (Hacc : (accMs t + (ms1 - lastMs t) + (ms2 - ms1)
                    == accMs t + (ms2 - lastMs t))%Q) by ring.
    change (score st) with (score st') in *.
    rewrite <- (passes_comp _ _ _ Hacc) in Hfuel |- *.
    destruct (drain_enough rnd fuel2 (stepMsForScore (score st')) _ st'
                (stepMs_positive (score st')) Hp' Hfuel)
      as [rest [Hrun [_ Hless]]].
    exists rest. split; [|exact Hless].
    unfold frame. cbv zeta. cbn [lastMs accMs]. rewrite Hms1.
    rewrite bool_decide_eq_true_2 by exact Hg'.
    rewrite Hrun. reflexivity.
Qed.

Lemma paused_time_is_replayed_witness :
  Qeq_bool (lastMs (mkTiming (1000 # 1) 0)) 0 = false /\
  passes (stepMsForScore
            (score (startNewGame zeroRandom "2026-11-01"
                      (initialState defaultStats true))))
    (0 + ((3000 # 1) - (1000 # 1))) = 9%nat /\
  frame zeroRandom 0 (2500 # 1) (mkTiming (1000 # 1) 0)
    (pauseGame (startNewGame zeroRandom "2026-11-01" (initialState defaultStats true)))
  = (mkTiming (2500 # 1) (0 + ((2500 # 1) - (1000 # 1))),
     Returned
       (pauseGame (startNewGame zeroRandom "2026-11-01"
                     (initialState defaultStats true)))).
Proof.
  split; [reflexivity|]. split; [vm_compute; reflexivity|].
  refine (proj1 (paused_time_is_replayed zeroRandom 0 9 (2500 # 1) (3000 # 1)
                   (mkTiming (1000 # 1) 0)
                   (startNewGame zeroRandom "2026-11-01"
                      (initialState defaultStats true)) _ _ _ _ _)).
  - vm_compute. reflexivity.
  - apply startNewGame_playable.
  - reflexivity.
  - reflexivity.
  - vm_compute. lia.
Defined.

(** ** Facts about wrapped text *)

Lemma append_assoc (a b c : string) : ((a +:+ b) +:+ c = a +:+ (b +:+ c))%string.
Proof.
  induction a as [|ch a IH]; [reflexivity|].
  change (String ch ((a +:+ b) +:+ c) = String ch (a +:+ (b +:+ c)))%string.
  f_equal. exact IH.
Qed.

Lemma append_nonempty_r (a b : string) : b <> ""%string -> (a +:+ b)%string <> ""%string.
Proof.
  intros Hb. destruct a as [|ch a]; [exact Hb|].
  change (String ch (a +:+ b) <> ""%string). discriminate.
Qed.

Lemma concat_snoc (sep a : string) (l : list string) :
  l <> [] ->
  String.concat sep (l ++ [a]) = (String.concat sep l +:+ sep +:+ a)%string.
Proof.
  induction l as [|b l IH]; [congruence|]. intros _.
  destruct l as [|c l]; [reflexivity|].
  change (String.concat sep ((b :: c :: l) ++ [a]))
    with (b +:+ sep +:+ String.concat sep ((c :: l) ++ [a]))%string.
  change (String.concat sep (b :: c :: l))
    with (b +:+ sep +:+ String.concat sep (c :: l))%string.
  rewrite IH by discriminate. rewrite !append_assoc. reflexivity.
Qed.

(** Putting one more word on the last line. *)
Lemma concat_grow_last (sep a b : string) (l : list string) :
  String.concat sep (l ++ [(a +:+ sep +:+ b)%string])
  = (String.concat sep (l ++ [a]) +:+ sep +:+ b)%string.
Proof.
  destruct l as [|c l]; [reflexivity|].
  rewrite !concat_snoc by discriminate. rewrite !append_assoc. reflexivity.
Qed.

Lemma wrapStep_inv (measure : string -> Q) (x y maxWidth lineHeight : Z)
    (processed : list string) (vars : string * Z * list FillText) (w : string) :
  w <> ""%string ->
  wrapInv measure x y maxWidth lineHeight processed vars ->
  wrapInv measure x y maxWidth lineHeight (processed ++ [w])
    (wrapStep measure x maxWidth lineHeight vars w).
Proof.
  intros Hw. destruct vars as [[line yy] calls].
  intros [Hyy [Hpos [Hfit [Hempty Hline]]]].
  unfold wrapStep. case_bool_decide as Hl.
  - destruct (Hempty Hl) as [-> ->]. rewrite orb_true_r.
    split; [exact Hyy|]. split; [exact Hpos|]. split; [|split].
    + intros c Hc. apply not_elem_of_nil in Hc. contradiction.
    + intros Hnil. congruence.
    + intros _. split; [discriminate|]. split; [reflexivity|].
      right. apply list_elem_of_here.
  - destruct (Hline Hl) as [Hne [Hspell Hlinefit]]. rewrite orb_false_r.
    destruct (Qle_bool (measure (line +:+ " " +:+ w)%string) (inject_Z maxWidth))
      eqn:Hfits.
    + split; [exact Hyy|]. split; [exact Hpos|]. split; [|split].
      * intros c Hc. destruct (Hfit c Hc) as [H|H]; [left; exact H|].
        right. apply elem_of_app. left. exact H.
      * intros Hnil. exfalso. revert Hnil. apply append_nonempty_r.
        apply append_nonempty_r. exact Hw.
      * intros _. split; [intros H; apply app_eq_nil in H; destruct H; congruence|].
        split; [|left; exact Hfits].
        rewrite concat_grow_last, Hspell, concat_snoc by exact Hne. reflexivity.
    + split; [|split; [|split; [|split]]].
      * rewrite length_app. cbn [length]. lia.
      * intros j c Hc. apply lookup_app_Some in Hc.
        destruct Hc as [Hc | [Hj Hc]]; [exact (Hpos j c Hc)|].
        destruct (j - length calls)%nat as [|k] eqn:Hk; [|discriminate Hc].
        injection Hc as <-. cbn [ftX ftY]. split; [reflexivity|].
        replace j with (length calls) by lia. exact Hyy.
      * intros c Hc. apply elem_of_app in Hc. destruct Hc as [Hc | Hc].
        -- destruct (Hfit c Hc) as [H|H]; [left; exact H|].
           right. apply elem_of_app. left. exact H.
        -- apply list_elem_of_singleton in Hc. subst c. cbn [ftText].
           destruct Hlinefit as [H|H]; [left; exact H|].
           right. apply elem_of_app. left. exact H.
      * intros Hnil. congruence.
      * intros _. split; [intros H; apply app_eq_nil in H; destruct H; congruence|].
        split; [|right; apply elem_of_app; right; apply list_elem_of_here].
        rewrite map_app. cbn [map ftText].
        rewrite concat_snoc by (intros H; apply app_eq_nil in H; destruct H; discriminate).
        rewrite Hspell, concat_snoc by exact Hne. reflexivity.
Qed.

Lemma wrapFold_inv (measure : string -> Q) (x y maxWidth lineHeight : Z)
    (words processed : list string) (vars : string * Z * list FillText) :
  Forall (fun w => w <> ""%string) words ->
  wrapInv measure x y maxWidth lineHeight processed vars ->
  wrapInv measure x y maxWidth lineHeight (processed ++ words)
    (fold_left (wrapStep measure x maxWidth lineHeight) words vars).
Proof.
  intros Hwords. revert processed vars.
  induction Hwords as [|w words Hw _ IH]; intros processed vars Hinv.
  - rewrite app_nil_r. exact Hinv.
  - cbn [fold_left]. replace (processed ++ w :: words) with ((processed ++ [w]) ++ words)
      by (rewrite <- app_assoc; reflexivity).
    apply IH. apply wrapStep_inv; assumption.
Qed.

Lemma drawWrappedText_inv (measure : string -> Q) (words : list string)
    (x y maxWidth lineHeight : Z) :
  Forall (fun w => w <> ""%string) words ->
  wrapInv measure x y maxWidth lineHeight words
    (fold_left (wrapStep measure x maxWidth lineHeight) words (""%string, y, [])).
Proof.
  intros Hwords.
  apply (wrapFold_inv measure x y maxWidth lineHeight words [] _ Hwords).
  split; [cbn; lia|]. split; [intros j c H; discriminate H|].
  split; [intros c Hc; apply not_elem_of_nil in Hc; contradiction|].
  split; [intros _; split; reflexivity | intros H; congruence].
Qed.

(** ** Properties of wrapped text *)

(** X27. [drawWrappedText] loses no word and changes no order: the
    lines it draws, joined by single spaces, are the words joined by
    single spaces. *)
Theorem wrapped_text_keeps_words (measure : string -> Q) (words : list string)
    (x y maxWidth lineHeight : Z) :
  Forall (fun w => w <> ""%string) words ->
  String.concat " "
    (map ftText (fst (drawWrappedText measure words x y maxWidth lineHeight)))
  = String.concat " " words.
Proof.
  intros Hwords. unfold drawWrappedText.
  pose proof (drawWrappedText_inv measure words x y maxWidth lineHeight Hwords) as Hinv.
  destruct (fold_left _ words _) as [[line yy] calls].
  destruct Hinv as [_ [_ [_ [Hempty Hline]]]].
  case_bool_decide as Hl; cbn [fst].
  - destruct (Hempty Hl) as [-> ->]. reflexivity.
  - destruct (Hline Hl) as [_ [Hspell _]].
    rewrite map_app. exact Hspell.
Qed.

(** X28. The lines of [drawWrappedText] are stacked: line [j] (from 0)
    is drawn at [x] and at height [y + j * lineHeight], and the value
    returned is [y] plus one [lineHeight] for every line drawn, and one
    [lineHeight] when there was no word to draw. *)
Theorem wrapped_lines_stack (measure : string -> Q) (words : list string)
    (x y maxWidth lineHeight : Z) :
  Forall (fun w => w <> ""%string) words ->
  (forall (j : nat) (c : FillText),
     fst (drawWrappedText measure words x y maxWidth lineHeight) !! j = Some c ->
     ftX c = x /\ ftY c = y + Z.of_nat j * lineHeight) /\
  snd (drawWrappedText measure words x y maxWidth lineHeight)
  = y + Z.max 1
          (Z.of_nat
             (length (fst (drawWrappedText measure words x y maxWidth lineHeight))))
        * lineHeight /\
  (fst (drawWrappedText measure words x y maxWidth lineHeight) = [] <-> words = []).
Proof.
  intros Hwords. unfold drawWrappedText.
  pose proof (drawWrappedText_inv measure words x y maxWidth lineHeight Hwords) as Hinv.
  destruct (fold_left _ words _) as [[line yy] calls].
  destruct Hinv as [Hyy [Hpos [_ [Hempty Hline]]]].
  case_bool_decide as Hl; cbn [fst snd].
  - destruct (Hempty Hl) as [-> ->]. cbn [length] in *.
    split; [intros j c H; discriminate H|].
    split; [change (Z.max 1 (Z.of_nat 0)) with 1; lia|]. split; reflexivity.
  - destruct (Hline Hl) as [Hne _]. split; [|split].
    + intros j c Hc. apply lookup_app_Some in Hc.
      destruct Hc as [Hc | [Hj Hc]]; [exact (Hpos j c Hc)|].
      destruct (j - length calls)%nat as [|k] eqn:Hk; [|discriminate Hc].
      injection Hc as <-. cbn [ftX ftY]. split; [reflexivity|].
      replace j with (length calls) by lia. exact Hyy.
    + rewrite length_app. cbn [length]. rewrite Z.max_r by lia.
      rewrite Nat2Z.inj_add. change (Z.of_nat 1) with 1. lia.
    + split; [intros H; apply app_eq_nil in H; destruct H; discriminate|].
      intros H. contradiction.
Qed.

(** X29. Every line that [drawWrappedText] draws fits [maxWidth], or
    else it is one single word, which is too wide for any line and is
    drawn on a line of its own. *)
Theorem wrapped_lines_fit (measure : string -> Q) (words : list string)
    (x y maxWidth lineHeight : Z) :
  Forall (fun w => w <> ""%string) words ->
  forall c : FillText,
    c ∈ fst (drawWrappedText measure words x y maxWidth lineHeight) ->
    (measure (ftText c) <= inject_Z maxWidth)%Q \/ ftText c ∈ words.
Proof.
  intros Hwords c. unfold drawWrappedText.
  pose proof (drawWrappedText_inv measure words x y maxWidth lineHeight Hwords) as Hinv.
  destruct (fold_left _ words _) as [[line yy] calls].
  destruct Hinv as [_ [_ [Hfit [_ Hline]]]].
  assert (Hold : forall c', c' ∈ calls ->
            (measure (ftText c') <= inject_Z maxWidth)%Q \/ ftText c' ∈ words).
  { intros c' Hc'. destruct (Hfit c' Hc') as [H|H]; [left | right; exact H].
    apply Qle_bool_iff. exact H. }
  case_bool_decide as Hl; cbn [fst]; [apply Hold|].
  intros Hc. apply elem_of_app in Hc. destruct Hc as [Hc | Hc]; [apply Hold; exact Hc|].
  apply list_elem_of_singleton in Hc. subst c. cbn [ftText].
  destruct (Hline Hl) as [_ [_ [H|H]]]; [left | right; exact H].
  apply Qle_bool_iff. exact H.
Qed.
